(** * cfdata: a shallow embedding of the Contentful test-data tool

    The development follows the TypeScript sources:

    - the access module for Contentful ([findTaggedEntries], [deleteEntries],
      [createEntry], [createAssetFromPicsum], [processAssets], [publishItems],
      [unpublishItems], [tagAsset], ...),
    - the setup workflow ([setupCommand], [createTestEntry]),
    - the teardown workflow ([teardownCommand]),
    - the command-line module ([program]).

    The vendor management client, the fake-data generator and the string
    helpers of lodash are collaborators outside the repository: they are
    binders of the section below, so that every theorem holds for every
    behaviour they may have. *)

From Stdlib Require Import ZArith List Ascii String Bool Lia.
From stdpp Require Import base option list strings gmap pretty.
Import ListNotations.
Local Open Scope string_scope.
Local Open Scope list_scope.

(** ** Data model (the parts of the vendor's types that the code reads or writes) *)

(** [{ sys: { type: 'Link', linkType, id } }] *)
Record Link := mkLink { linkType : string; link_id : string }.

(** [{ sys: { type: 'Link', id, version, linkType } }], the links of a bulk
    publish payload. *)
Record VersionedLink := mkVersionedLink {
  vlinkType : string;
  vlink_id : string;
  vlink_version : Z
}.

(** The file part of an asset: a local stream ([createReadStream(file)]) or a
    remote [upload] URL. *)
Inductive FileSource :=
| FromStream (path : string)
| FromUpload (url : string).

Record FileField := mkFileField {
  file_source : FileSource;
  file_contentType : string;
  file_fileName : string
}.

(** A field value in one locale. *)
Inductive FieldValue :=
| FText (s : string)
| FLink (l : Link)
| FFile (f : FileField).

(** field name -> locale -> value *)
Abbreviation Fields := (gmap string (gmap string FieldValue)).

Record Metadata := mkMetadata { tags : list Link }.

Record Sys := mkSys { id : string; version : Z; type : string }.

Record EntryProps := mkEntry {
  entry_sys : Sys;
  entry_fields : Fields;
  entry_metadata : option Metadata
}.

Record AssetProps := mkAsset {
  asset_sys : Sys;
  asset_fields : Fields;
  asset_metadata : option Metadata
}.

(** [CreateEntryProps]: fields and metadata, no [sys]. *)
Record CreateEntryProps := mkCreateEntry {
  ce_fields : Fields;
  ce_metadata : option Metadata
}.

(** The object handed to [client.asset.create] and
    [client.asset.createFromFiles]. *)
Record CreateAssetProps := mkCreateAsset {
  ca_fields : Fields;
  ca_metadata : option Metadata
}.

(** [ItemArray = (AssetProps | EntryProps)[]] *)
Inductive Item :=
| AssetItem (a : AssetProps)
| EntryItem (e : EntryProps).

Definition sys (i : Item) : Sys :=
  match i with
  | AssetItem a => asset_sys a
  | EntryItem e => entry_sys e
  end.

Abbreviation ItemArray := (list Item).

(** The setup workflow's [Items] interface. *)
Record Items := mkItems { assets : list AssetProps; entries : list EntryProps }.

(** [AssetMeta] of the model module. *)
Record AssetMeta := mkAssetMeta {
  title : string;
  description : string;
  contentType : string;
  fileName : string
}.

(** [{ spaceId, environmentId }] *)
Record BulkParams := mkBulkParams { spaceId : string; environmentId : string }.

(** [{ entities: { sys: { type: 'Array' }, items } }] *)
Record BulkActionPublishPayload := mkPublishPayload {
  pub_entities_type : string;
  pub_items : list VersionedLink
}.

Record BulkActionUnpublishPayload := mkUnpublishPayload {
  unpub_entities_type : string;
  unpub_items : list Link
}.

(** What the vendor answers to a bulk action; the code only passes it on. *)
Record BulkActionProps := mkBulkAction { bulk_id : string; bulk_status : string }.

(** The parsed command-line options the workflows read. *)
Record Options := mkOptions { tag : string; locale : string }.

(** ** Promises over a remote workspace *)

(** A settled promise. *)
Inductive Settled (A : Type) :=
| Fulfilled (a : A)
| Rejected (reason : string).
Arguments Fulfilled {A} a.
Arguments Rejected {A} reason.

Definition is_fulfilled {A} (r : Settled A) : bool :=
  match r with Fulfilled _ => true | Rejected _ => false end.

(** The same settlement, with the value seen as a vendor response. *)
Definition answered {A B} (inj : A -> B) (r : Settled A) : Settled B :=
  match r with
  | Fulfilled a => Fulfilled (inj a)
  | Rejected e => Rejected e
  end.

(** The requests the access module sends through the vendor client. *)
Inductive Request :=
| EntryGetMany (query : gmap string string)
| AssetGetMany (query : gmap string string)
| EntryDelete (entryId : string)
| AssetDelete (assetId : string)
| EntryCreate (contentTypeId : string) (entry : CreateEntryProps)
| AssetCreateFromFiles (props : CreateAssetProps)
| AssetCreate (props : CreateAssetProps)
| AssetProcessForAllLocales (asset : AssetProps)
| AssetUpdate (assetId : string) (asset : AssetProps)
| BulkActionPublish (params : BulkParams) (payload : BulkActionPublishPayload)
| BulkActionUnpublish (params : BulkParams) (payload : BulkActionUnpublishPayload).

(** What came back. *)
Inductive Response :=
| GotEntries (items : list EntryProps)
| GotAssets (items : list AssetProps)
| GotNothing
| GotEntry (e : EntryProps)
| GotAsset (a : AssetProps)
| GotBulkAction (b : BulkActionProps).

(** One observable step of a run: a log record or a vendor call with the way
    it settled. *)
Inductive Event :=
| Info (message : string)
| Call (rq : Request) (rs : Settled Response).

Definition is_bulk_action (rq : Request) : bool :=
  match rq with
  | BulkActionPublish _ _ | BulkActionUnpublish _ _ => true
  | _ => false
  end.

Definition is_publish (rq : Request) : bool :=
  match rq with BulkActionPublish _ _ => true | _ => false end.

Definition is_delete (rq : Request) : bool :=
  match rq with EntryDelete _ | AssetDelete _ => true | _ => false end.

(** The vendor calls of a trace, in the order they were issued. *)
Fixpoint calls (t : list Event) : list (Request * Settled Response) :=
  match t with
  | [] => []
  | Info _ :: t' => calls t'
  | Call rq rs :: t' => (rq, rs) :: calls t'
  end.

Definition requests (t : list Event) : list Request := map fst (calls t).

Section Workspace.

(** The remote workspace, together with whatever else the collaborators
    keep (the generator's seed, the network). *)
Context {W : Type}.

Record Outcome (A : Type) := mkOutcome {
  settled : Settled A;
  world : W;
  trace : list Event
}.
Arguments mkOutcome {A}.
Arguments settled {A}.
Arguments world {A}.
Arguments trace {A}.

(** An asynchronous computation: started in a workspace, it settles, leaves
    a workspace behind and has produced a trace. *)
Definition Async (A : Type) : Type := W -> Outcome A.

Definition resolve {A} (a : A) : Async A :=
  fun w => mkOutcome (Fulfilled a) w [].

(** [const x = await m; k x]: a rejection of [m] leaves [k] unexecuted. *)
Definition await {A B} (m : Async A) (k : A -> Async B) : Async B :=
  fun w =>
    let o := m w in
    match settled o with
    | Fulfilled a =>
        let o' := k a (world o) in
        mkOutcome (settled o') (world o') (trace o ++ trace o')
    | Rejected e => mkOutcome (Rejected e) (world o) (trace o)
    end.

(** [Promise.all(xs.map(f))]: every element's computation is started, in
    list order, whether or not an earlier one rejects; the join is fulfilled
    with all the values when all are, and rejected otherwise.  The model
    lets the computations run one after the other and reports the rejection
    that comes first in list order. *)
Fixpoint promise_all {A} (ms : list (Async A)) : Async (list A) :=
  match ms with
  | [] => resolve []
  | m :: ms' =>
      fun w =>
        let o := m w in
        let o' := promise_all ms' (world o) in
        mkOutcome
          (match settled o with
           | Rejected e => Rejected e
           | Fulfilled a =>
               match settled o' with
               | Rejected e => Rejected e
               | Fulfilled l => Fulfilled (a :: l)
               end
           end)
          (world o') (trace o ++ trace o')
  end.

End Workspace.

Arguments Outcome W A : clear implicits.
Arguments Async W A : clear implicits.
Arguments mkOutcome {W A}.
Arguments settled {W A}.
Arguments world {W A}.
Arguments trace {W A}.

Declare Scope async_scope.
Delimit Scope async_scope with async.
Notation "x <- m ;; k" := (await m (fun x => k))
  (at level 100, m at next level, right associativity) : async_scope.
Notation "m ;; k" := (await m (fun _ => k))
  (at level 100, right associativity) : async_scope.

(** ** The collaborators *)

(** The plain management client: each method answers in a workspace with a
    settled result and the workspace it leaves. *)
Record PlainClient (W : Type) := mkClient {
  entry_getMany : gmap string string -> W -> Settled (list EntryProps) * W;
  asset_getMany : gmap string string -> W -> Settled (list AssetProps) * W;
  entry_delete : string -> W -> Settled unit * W;
  asset_delete : string -> W -> Settled unit * W;
  entry_create : string -> CreateEntryProps -> W -> Settled EntryProps * W;
  asset_createFromFiles : CreateAssetProps -> W -> Settled AssetProps * W;
  asset_create : CreateAssetProps -> W -> Settled AssetProps * W;
  asset_processForAllLocales : AssetProps -> W -> Settled AssetProps * W;
  asset_update : string -> AssetProps -> W -> Settled AssetProps * W;
  bulkAction_publish :
    BulkParams -> BulkActionPublishPayload -> W -> Settled BulkActionProps * W;
  bulkAction_unpublish :
    BulkParams -> BulkActionUnpublishPayload -> W -> Settled BulkActionProps * W
}.
Arguments entry_getMany {W}.
Arguments asset_getMany {W}.
Arguments entry_delete {W}.
Arguments asset_delete {W}.
Arguments entry_create {W}.
Arguments asset_createFromFiles {W}.
Arguments asset_create {W}.
Arguments asset_processForAllLocales {W}.
Arguments asset_update {W}.
Arguments bulkAction_publish {W}.
Arguments bulkAction_unpublish {W}.

(** The fake-data generator: every draw may change its state. *)
Record Faker (W : Type) := mkFaker {
  company_name : W -> string * W;
  address_streetAddress : W -> string * W;
  address_city : W -> string * W;
  address_county : W -> string * W;
  address_zipCode : W -> string * W
}.
Arguments company_name {W}.
Arguments address_streetAddress {W}.
Arguments address_city {W}.
Arguments address_county {W}.
Arguments address_zipCode {W}.

Section Cfdata.

Context {W : Type}.
Variable client : PlainClient W.
Variable faker : Faker W.
(** lodash *)
Variables snakeCase kebabCase : string -> string.
(** [JSON.stringify] on the field values handed to [createEntry] *)
Variable JSON_stringify : Fields -> string.
(** [process.env.CONTENTFUL_SPACE_ID] *)
Variable SPACE_ID : string.

Local Open Scope async_scope.

(** [logger.info(message)] *)
Definition info (message : string) : Async W unit :=
  fun w => mkOutcome (Fulfilled tt) w [Info message].

(** [xs.forEach(x => logger.info(f x))] *)
Definition forEach_info {A} (xs : list A) (f : A -> string) : Async W unit :=
  fun w => mkOutcome (Fulfilled tt) w (map (fun x => Info (f x)) xs).

(** A call of a client method: the request and the way it settled are
    recorded. *)
Definition call {A} (rq : Request) (inj : A -> Response)
    (method : W -> Settled A * W) : Async W A :=
  fun w =>
    let r := method w in
    mkOutcome (fst r) (snd r) [Call rq (answered inj (fst r))].

(** A draw from the generator. *)
Definition draw (gen : W -> string * W) : Async W string :=
  fun w => let r := gen w in mkOutcome (Fulfilled (fst r)) (snd r) [].

(** *** Access module for Contentful *)

Definition tagged_query (tag : string) : gmap string string :=
  {[ "select" := "sys.id"; "metadata.tags.sys.id[all]" := tag ]}.

Definition findTaggedEntries (tag : string) : Async W (list string) :=
  info ("findTaggedEntries(tag=" +:+ tag +:+ ")") ;;
  result <- call (EntryGetMany (tagged_query tag)) GotEntries
              (entry_getMany client (tagged_query tag)) ;;
  resolve (map (fun entry => id (entry_sys entry)) result).

Definition findTaggedAssets (tag : string) : Async W (list string) :=
  info ("findTaggedAssets(tag=" +:+ tag +:+ ")") ;;
  result <- call (AssetGetMany (tagged_query tag)) GotAssets
              (asset_getMany client (tagged_query tag)) ;;
  resolve (map (fun entry => id (asset_sys entry)) result).

Definition deleteEntries (ids : list string) : Async W (list unit) :=
  info ("deleteEntries(ids=[" +:+ pretty (length ids) +:+ "])") ;;
  promise_all (map (fun id =>
    info ("delete entry " +:+ id) ;;
    call (EntryDelete id) (fun _ => GotNothing) (entry_delete client id)) ids).

Definition deleteAssets (ids : list string) : Async W (list unit) :=
  info ("deleteAssets(ids=[" +:+ pretty (length ids) +:+ "])") ;;
  promise_all (map (fun id =>
    info ("delete asset " +:+ id) ;;
    call (AssetDelete id) (fun _ => GotNothing) (asset_delete client id)) ids).

Definition tag_link (tag : string) : Link := mkLink "Tag" tag.

Definition createEntry (contentTypeId : string) (value : Fields) (tag : string)
    : Async W EntryProps :=
  info ("createEntry(contentTypeId=" +:+ contentTypeId +:+ ", value="
        +:+ JSON_stringify value +:+ ", tag=" +:+ tag +:+ ")") ;;
  let entry := mkCreateEntry value (Some (mkMetadata [tag_link tag])) in
  call (EntryCreate contentTypeId entry) GotEntry
    (entry_create client contentTypeId entry).

Definition tagAsset (asset : AssetProps) (tag : string) : Async W AssetProps :=
  info ("tagAsset(id=" +:+ id (asset_sys asset) +:+ ", tag=" +:+ tag +:+ ")") ;;
  let asset :=
    mkAsset (asset_sys asset) (asset_fields asset)
      (Some (mkMetadata [tag_link tag])) in
  updatedAsset <- call (AssetUpdate (id (asset_sys asset)) asset) GotAsset
                    (asset_update client (id (asset_sys asset)) asset) ;;
  info ("updated " +:+ id (asset_sys updatedAsset)) ;;
  resolve updatedAsset.

Definition createAssetFromFile (meta : AssetMeta) (file locale tag : string)
    : Async W AssetProps :=
  info ("createAsset(file=" +:+ file +:+ ", tag=" +:+ tag +:+ ")") ;;
  let assetProps :=
    mkCreateAsset
      {[ "title" := {[ locale := FText (title meta) ]};
         "description" := {[ locale := FText (description meta) ]};
         "file" := {[ locale := FFile (mkFileField (FromStream file)
                                          (contentType meta) (fileName meta)) ]} ]}
      None in
  asset <- call (AssetCreateFromFiles assetProps) GotAsset
             (asset_createFromFiles client assetProps) ;;
  info ("created " +:+ id (asset_sys asset)) ;;
  tagAsset asset tag.

Definition createAssetFromPicsum (meta : AssetMeta) (width height : Z)
    (locale tag : string) : Async W AssetProps :=
  info ("createPicsumAsset(tag=" +:+ tag +:+ ")") ;;
  let assetProps :=
    mkCreateAsset
      {[ "title" := {[ locale := FText (title meta) ]};
         "description" := {[ locale := FText (description meta) ]};
         "file" := {[ locale := FFile (mkFileField
                        (FromUpload ("https://picsum.photos/" +:+ pretty width
                                     +:+ "/" +:+ pretty height))
                        (contentType meta) (fileName meta)) ]} ]}
      None in
  asset <- call (AssetCreate assetProps) GotAsset
             (asset_create client assetProps) ;;
  info ("created " +:+ id (asset_sys asset)) ;;
  tagAsset asset tag.

Definition processAssets (assets : list AssetProps) : Async W (list AssetProps) :=
  info ("processAssets(assets=[" +:+ pretty (length assets) +:+ "])") ;;
  let results := map (fun asset =>
    call (AssetProcessForAllLocales asset) GotAsset
      (asset_processForAllLocales client asset)) assets in
  promise_all results.

Definition master : BulkParams := mkBulkParams SPACE_ID "master".

Definition publish_link (item : Item) : VersionedLink :=
  mkVersionedLink (type (sys item)) (id (sys item)) (version (sys item)).

Definition publishItems (items : ItemArray) : Async W (option BulkActionProps) :=
  info ("publishItems(items=[" +:+ pretty (length items) +:+ "])") ;;
  if Nat.eqb (length items) 0 then resolve None else
  forEach_info items (fun item => "publish " +:+ id (sys item)) ;;
  let payload := mkPublishPayload "Array" (map publish_link items) in
  action <- call (BulkActionPublish master payload) GotBulkAction
              (bulkAction_publish client master payload) ;;
  resolve (Some action).

Definition unpublishItems (items : list string) (type : string)
    : Async W (option BulkActionProps) :=
  info ("unpublishItems(items=[" +:+ pretty (length items) +:+ "], type="
        +:+ type +:+ ")") ;;
  if Nat.eqb (length items) 0 then resolve None else
  forEach_info items (fun id => "unpublish " +:+ id) ;;
  let payload := mkUnpublishPayload "Array" (map (fun id => mkLink type id) items) in
  action <- call (BulkActionUnpublish master payload) GotBulkAction
              (bulkAction_unpublish client master payload) ;;
  resolve (Some action).

Definition unpublishEntries (ids : list string) : Async W (option BulkActionProps) :=
  info ("unpublishEntries(ids=[" +:+ pretty (length ids) +:+ "])") ;;
  unpublishItems ids "Entry".

Definition unpublishAssets (ids : list string) : Async W (option BulkActionProps) :=
  info ("unpublishAssets(ids=[" +:+ pretty (length ids) +:+ "])") ;;
  unpublishItems ids "Asset".

(** *** Setup workflow *)

Definition createTestEntry (locale tag : string) : Async W Items :=
  name <- draw (company_name faker) ;;
  let imageProps :=
    mkAssetMeta (name +:+ " featured image")
      ("Main image for " +:+ name +:+ ".")
      "image/jpeg"
      (snakeCase name +:+ ".jpg") in
  imageAsset <- createAssetFromPicsum imageProps 400 225 locale tag ;;
  info ("created asset " +:+ id (asset_sys imageAsset)) ;;
  houseNumberAndStreet <- draw (address_streetAddress faker) ;;
  town <- draw (address_city faker) ;;
  county <- draw (address_county faker) ;;
  postcode <- draw (address_zipCode faker) ;;
  let addressProps : Fields :=
    {[ "houseNumberAndStreet" := {[ locale := FText houseNumberAndStreet ]};
       "town" := {[ locale := FText town ]};
       "county" := {[ locale := FText county ]};
       "postcode" := {[ locale := FText postcode ]} ]} in
  addressEntry <- createEntry "address" addressProps tag ;;
  info ("created address entry " +:+ id (entry_sys addressEntry)) ;;
  let articleProps : Fields :=
    {[ "name" := {[ locale := FText name ]};
       "address" := {[ locale := FLink (mkLink "Entry" (id (entry_sys addressEntry))) ]};
       "mainImage" := {[ locale := FLink (mkLink "Asset" (id (asset_sys imageAsset))) ]};
       "slug" := {[ locale := FText (kebabCase name) ]} ]} in
  articleEntry <- createEntry "article" articleProps tag ;;
  info ("created article entry " +:+ id (entry_sys articleEntry)) ;;
  resolve (mkItems [imageAsset] [addressEntry; articleEntry]).

(** The body of [for (var i = 0; i < 10; i++)], with [n] iterations left. *)
Fixpoint setupCommand_loop (n : nat) (locale tag : string) (allCreatedItems : Items)
    : Async W Items :=
  match n with
  | O => resolve allCreatedItems
  | S n' =>
      createdItems <- createTestEntry locale tag ;;
      setupCommand_loop n' locale tag
        (mkItems (assets allCreatedItems ++ assets createdItems)
                 (entries allCreatedItems ++ entries createdItems))
  end.

Definition setupCommand (options : Options) : Async W unit :=
  info "setup" ;;
  let tag := tag options in
  let locale := locale options in
  allCreatedItems <- setupCommand_loop 10 locale tag (mkItems [] []) ;;
  allProcessedAssets <- processAssets (assets allCreatedItems) ;;
  let toPublish :=
    map EntryItem (entries allCreatedItems) ++ map AssetItem allProcessedAssets in
  publishItems toPublish ;;
  info "setup finished".

(** *** Teardown workflow *)

Definition teardownCommand (options : Options) : Async W unit :=
  info "teardown" ;;
  let tag := tag options in
  generatedEntries <- findTaggedEntries tag ;;
  generatedAssets <- findTaggedAssets tag ;;
  unpublishEntries generatedEntries ;;
  unpublishAssets generatedAssets ;;
  deleteEntries generatedEntries ;;
  deleteAssets generatedAssets ;;
  info "teardown finished".

End Cfdata.

(** ** A workspace to run the workflows in

    The demo vendor numbers what it creates: entries [e0], [e1], ... and
    assets [a0], [a1], ...; it echoes fields and metadata, bumps the version
    on update and on processing, finds the ids it is told to find, and fails
    to process the assets whose id [fails] selects. *)

Module Demo.

Definition W : Type := nat.

Definition client (found_entries found_assets : list string)
    (fails : string -> bool) : PlainClient W :=
  {| entry_getMany := fun _ n =>
       (Fulfilled (map (fun i => mkEntry (mkSys i 1 "Entry") ∅ None) found_entries), n);
     asset_getMany := fun _ n =>
       (Fulfilled (map (fun i => mkAsset (mkSys i 1 "Asset") ∅ None) found_assets), n);
     entry_delete := fun _ n => (Fulfilled tt, n);
     asset_delete := fun _ n => (Fulfilled tt, n);
     entry_create := fun _ e n =>
       (Fulfilled (mkEntry (mkSys ("e" +:+ pretty n) 1 "Entry")
                     (ce_fields e) (ce_metadata e)), S n);
     asset_createFromFiles := fun p n =>
       (Fulfilled (mkAsset (mkSys ("a" +:+ pretty n) 1 "Asset")
                     (ca_fields p) (ca_metadata p)), S n);
     asset_create := fun p n =>
       (Fulfilled (mkAsset (mkSys ("a" +:+ pretty n) 1 "Asset")
                     (ca_fields p) (ca_metadata p)), S n);
     asset_processForAllLocales := fun a n =>
       if fails (id (asset_sys a)) then (Rejected "processing failed", n)
       else (Fulfilled (mkAsset (mkSys (id (asset_sys a)) (version (asset_sys a) + 1)
                                   (type (asset_sys a)))
                          (asset_fields a) (asset_metadata a)), n);
     asset_update := fun _ a n =>
       (Fulfilled (mkAsset (mkSys (id (asset_sys a)) (version (asset_sys a) + 1)
                              (type (asset_sys a)))
                     (asset_fields a) (asset_metadata a)), n);
     bulkAction_publish := fun _ _ n => (Fulfilled (mkBulkAction "b" "created"), n);
     bulkAction_unpublish := fun _ _ n => (Fulfilled (mkBulkAction "b" "created"), n) |}.

Definition faker : Faker W :=
  {| company_name := fun n => ("Acme " +:+ pretty n, n);
     address_streetAddress := fun n => ("1 High Street", n);
     address_city := fun n => ("Leeds", n);
     address_county := fun n => ("West Yorkshire", n);
     address_zipCode := fun n => ("LS1 1AA", n) |}.

Definition no_failure (_ : string) : bool := false.

Definition setup (fails : string -> bool) (options : Options) : Outcome W unit :=
  setupCommand (client [] [] fails) faker (fun s => s) (fun s => s)
    (fun _ => "{}") "space" options 0.

Definition teardown (found_entries found_assets : list string)
    (options : Options) : Outcome W unit :=
  teardownCommand (client found_entries found_assets no_failure) "space" options 0.

Definition demo_options : Options := mkOptions "demo" "en-US".

End Demo.

(** ** Command-line module *)

Module Cli.

(** What an option holds once the command line is parsed: a string taken
    from the command line or from the default, or the boolean of a flag
    that takes no argument. *)
Inductive OptionValue :=
| Str (s : string)
| Flag (b : bool).

(** [.option(flags, description, defaultValue)] *)
Record OptionDecl := mkOption {
  flags : string;
  help : string;
  defaultValue : option OptionValue
}.

(** The action handlers: [setupCommand] and [teardownCommand]. *)
Inductive Action := SetupCommand | TeardownCommand.

(** [program.command(name).description(..).option(..)...action(..)] *)
Record CommandDecl := mkCommand {
  command_name : string;
  command_description : string;
  command_options : list OptionDecl;
  command_action : Action
}.

Record Program := mkProgram {
  program_name : string;
  program_description : string;
  program_version : string;
  commands : list CommandDecl
}.

Definition DEFAULT_TAG : string := "generated".
Definition DEFAULT_LOCALE : string := "en-US".

Definition program : Program :=
  mkProgram "cfdata" "Manage Contentful test data" "0.0.1"
    [ mkCommand "teardown" "Remove all previously generated test data"
        [ mkOption "-t, --tag"
            "id of the pre-existing tag to use to find items to delete"
            (Some (Str DEFAULT_TAG)) ]
        TeardownCommand;
      mkCommand "setup" "Add new generated test data"
        [ mkOption "-l, --locale" "locale to generate test data for"
            (Some (Str DEFAULT_LOCALE));
          mkOption "-t, --tag"
            "id of the pre-existing tag to use when creating items"
            (Some (Str DEFAULT_TAG)) ]
        SetupCommand ].

(** *** The option parser of the commander library

    The library is not part of the repository.  The definitions below
    follow its documented reading of a flags string and of a command line,
    for the forms the declarations above can meet: a flags string names a
    short and a long flag separated by a comma, a bar or spaces; the option
    takes a required argument when the flags string holds [<], an optional
    one when it holds [[], and is a boolean flag otherwise; on the command
    line an option with a required argument consumes the next word, a
    boolean flag consumes nothing and is set to [true], the words after
    [--] and the words that are no options are operands, and a word that
    starts with a dash and is no declared flag is refused.  Values attached
    to a flag ([--tag=demo], [-tdemo]), negated and variadic options are
    left out. *)

Definition is_separator (c : ascii) : bool :=
  (Ascii.eqb c " " || Ascii.eqb c "|" || Ascii.eqb c ",")%bool.

(** [flags.split(/[ |,]+/)], with [cur] the part read so far. *)
Fixpoint split_flags (s cur : string) : list string :=
  match s with
  | EmptyString => if String.eqb cur "" then [] else [cur]
  | String c s' =>
      if is_separator c
      then (if String.eqb cur "" then [] else [cur]) ++ split_flags s' ""
      else split_flags s' (cur ++ String c "")
  end.

(** [flags.includes(c)] *)
Fixpoint includes (c : ascii) (s : string) : bool :=
  match s with
  | EmptyString => false
  | String c' s' => (Ascii.eqb c c' || includes c s')%bool
  end.

Inductive Arity := Required | Optional | Boolean.

Definition arity (o : OptionDecl) : Arity :=
  if includes "<" (flags o) then Required
  else if includes "[" (flags o) then Optional
  else Boolean.

(** The parts of the flags string that are flags: those that start with a
    dash. *)
Definition maybeOption (arg : string) : bool :=
  match arg with
  | String "-" (String _ _) => true
  | _ => false
  end.

Definition flag_names (o : OptionDecl) : list string :=
  List.filter maybeOption (split_flags (flags o) "").

(** The key under which the value is stored: the long flag without its
    dashes. *)
Definition strip_dashes (flag : string) : string :=
  match flag with
  | String "-" (String "-" name) => name
  | String "-" name => name
  | _ => flag
  end.

Definition long_flag (o : OptionDecl) : string :=
  match List.filter (fun f => match f with
                              | String "-" (String "-" _) => true
                              | _ => false
                              end) (flag_names o) with
  | f :: _ => f
  | [] => match flag_names o with f :: _ => f | [] => "" end
  end.

Definition option_name (o : OptionDecl) : string := strip_dashes (long_flag o).

Definition findOption (decls : list OptionDecl) (arg : string) : option OptionDecl :=
  List.find (fun o => existsb (String.eqb arg) (flag_names o)) decls.

(** The option values before the command line is read: the defaults. *)
Definition defaults (decls : list OptionDecl) : gmap string OptionValue :=
  fold_right (fun o m =>
    match defaultValue o with
    | Some v => <[ option_name o := v ]> m
    | None => m
    end) ∅ decls.

(** Reading the words of a command line; [None] when the library refuses
    them. *)
Fixpoint parseOptions (decls : list OptionDecl) (args : list string)
    (values : gmap string OptionValue) (operands : list string)
    : option (gmap string OptionValue * list string) :=
  match args with
  | [] => Some (values, operands)
  | arg :: rest =>
      if String.eqb arg "--" then Some (values, operands ++ rest) else
      if maybeOption arg then
        match findOption decls arg with
        | Some o =>
            match arity o with
            | Required =>
                match rest with
                | value :: rest' =>
                    parseOptions decls rest'
                      (<[ option_name o := Str value ]> values) operands
                | [] => None
                end
            | Optional =>
                match rest with
                | value :: rest' =>
                    if maybeOption value
                    then parseOptions decls rest
                           (<[ option_name o := Flag true ]> values) operands
                    else parseOptions decls rest'
                           (<[ option_name o := Str value ]> values) operands
                | [] => Some (<[ option_name o := Flag true ]> values, operands)
                end
            | Boolean =>
                parseOptions decls rest
                  (<[ option_name o := Flag true ]> values) operands
            end
        | None => None
        end
      else parseOptions decls rest values (operands ++ [arg])
  end.

(** What [program.parse()] does with the words after the script name: the
    first word selects the command, whose action handler is called with the
    parsed options.  The commands declare no arguments; operands in excess
    are let through when [allowExcessArguments] holds and refused
    otherwise. *)
Definition parse (allowExcessArguments : bool) (p : Program) (argv : list string)
    : option (Action * gmap string OptionValue) :=
  match argv with
  | [] => None
  | name :: rest =>
      match List.find (fun c => String.eqb name (command_name c)) (commands p) with
      | None => None
      | Some c =>
          match parseOptions (command_options c) rest
                  (defaults (command_options c)) [] with
          | None => None
          | Some (values, operands) =>
              match operands with
              | [] => Some (command_action c, values)
              | _ :: _ =>
                  if allowExcessArguments
                  then Some (command_action c, values)
                  else None
              end
          end
      end
  end.

End Cli.

(** ** Vocabulary for the properties *)

Definition fulfilled_call (c : Request * Settled Response) : bool :=
  is_fulfilled (snd c).

(** The calls of consecutive phases, where a phase is entered only when
    every call of the phase before it was fulfilled. *)
Fixpoint phases_until_rejection (phases : list (list (Request * Settled Response)))
    : list (Request * Settled Response) :=
  match phases with
  | [] => []
  | p :: ps =>
      p ++ if forallb fulfilled_call p then phases_until_rejection ps else []
  end.

(** The bulk request that unpublishes [ids]: none for no ids, one otherwise. *)
Definition unpublish_requests (SPACE_ID type : string) (ids : list string)
    : list Request :=
  match ids with
  | [] => []
  | _ :: _ =>
      [BulkActionUnpublish (mkBulkParams SPACE_ID "master")
         (mkUnpublishPayload "Array" (map (fun id => mkLink type id) ids))]
  end.

(** The asset as [tagAsset] sends it back: its metadata replaced by the one
    tag link. *)
Definition retagged (asset : AssetProps) (tag : string) : AssetProps :=
  mkAsset (asset_sys asset) (asset_fields asset)
    (Some (mkMetadata [mkLink "Tag" tag])).

(** What one fulfilled iteration of the setup loop sent and got back. *)
Record Iteration := mkIteration {
  it_assetProps : CreateAssetProps;   (* sent to create the image *)
  it_created : AssetProps;            (* the answer: the untagged asset *)
  it_image : AssetProps;              (* the answer to the tagging update *)
  it_addressProps : Fields;           (* sent to create the address *)
  it_address : EntryProps;            (* the answer *)
  it_articleProps : Fields;           (* sent to create the article *)
  it_article : EntryProps             (* the answer *)
}.

Definition iteration_calls (tag : string) (it : Iteration)
    : list (Request * Settled Response) :=
  [ (AssetCreate (it_assetProps it), Fulfilled (GotAsset (it_created it)));
    (AssetUpdate (id (asset_sys (it_created it))) (retagged (it_created it) tag),
     Fulfilled (GotAsset (it_image it)));
    (EntryCreate "address"
       (mkCreateEntry (it_addressProps it) (Some (mkMetadata [mkLink "Tag" tag]))),
     Fulfilled (GotEntry (it_address it)));
    (EntryCreate "article"
       (mkCreateEntry (it_articleProps it) (Some (mkMetadata [mkLink "Tag" tag]))),
     Fulfilled (GotEntry (it_article it))) ].

Definition iteration_entries (it : Iteration) : list EntryProps :=
  [it_address it; it_article it].

(** The article's link fields hold the ids of the address entry and of the
    image asset of the same iteration. *)
Definition links_closed (locale : string) (it : Iteration) : Prop :=
  it_articleProps it !! "address" =
    Some {[ locale := FLink (mkLink "Entry" (id (entry_sys (it_address it)))) ]} /\
  it_articleProps it !! "mainImage" =
    Some {[ locale := FLink (mkLink "Asset" (id (asset_sys (it_image it)))) ]}.

(** The fulfilled processing calls of [assets], answered by [processed]. *)
Fixpoint process_calls (assets processed : list AssetProps)
    : list (Request * Settled Response) :=
  match assets, processed with
  | a :: assets', p :: processed' =>
      (AssetProcessForAllLocales a, Fulfilled (GotAsset p))
      :: process_calls assets' processed'
  | _, _ => []
  end.

Definition creates_entry (contentTypeId : string) (rq : Request) : bool :=
  match rq with
  | EntryCreate c _ => String.eqb c contentTypeId
  | _ => false
  end.

Definition creates_asset (rq : Request) : bool :=
  match rq with AssetCreate _ => true | _ => false end.

(** The sizes of the bulk publish payloads of a run, in order. *)
Fixpoint published_sizes (rqs : list Request) : list nat :=
  match rqs with
  | [] => []
  | BulkActionPublish _ payload :: rqs' =>
      length (pub_items payload) :: published_sizes rqs'
  | _ :: rqs' => published_sizes rqs'
  end.

(** The requests of the creation loop: asset creation, tagging update and
    entry creation. *)
Definition creation_request (rq : Request) : bool :=
  match rq with
  | AssetCreate _ | AssetUpdate _ _ | EntryCreate _ _ => true
  | _ => false
  end.

Definition is_process (rq : Request) : bool :=
  match rq with AssetProcessForAllLocales _ => true | _ => false end.

Definition updates_asset (rq : Request) : bool :=
  match rq with AssetUpdate _ _ => true | _ => false end.

(** The request attaches exactly the tag [tag]: an entry creation by its
    metadata, an asset update by the metadata of the asset it sends. *)
Definition carries_tag (tag : string) (rq : Request) : Prop :=
  match rq with
  | EntryCreate _ entry => ce_metadata entry = Some (mkMetadata [mkLink "Tag" tag])
  | AssetUpdate _ asset => asset_metadata asset = Some (mkMetadata [mkLink "Tag" tag])
  | _ => True
  end.

(** Some processing call of the trace was rejected. *)
Definition processing_failed (cs : list (Request * Settled Response)) : bool :=
  existsb (fun c => is_process (fst c) && negb (fulfilled_call c)) cs.

(** *** Vocabulary for the whole of a run *)

(** A run surfaces the vendor's failures: fulfilled, every call it made was
    fulfilled; rejected, its reason is the reason of a call that was
    rejected. *)
Definition surfaces_failures {W A} (o : Outcome W A) : Prop :=
  match settled o with
  | Fulfilled _ => forallb fulfilled_call (calls (trace o)) = true
  | Rejected reason => exists rq, In (rq, Rejected reason) (calls (trace o))
  end.

(** The calls of an iteration whose request number [k] (from 0) was rejected
    for [reason]: the [k] fulfilled calls before it, then the rejected one. *)
Definition rejected_iteration_calls (tag : string) (it : Iteration) (k : nat)
    (reason : string) : list (Request * Settled Response) :=
  take k (iteration_calls tag it) ++
  match iteration_calls tag it !! k with
  | Some c => [(fst c, Rejected reason)]
  | None => []
  end.

(** Some creation call of the trace was rejected. *)
Definition creation_failed (cs : list (Request * Settled Response)) : bool :=
  existsb (fun c => creation_request (fst c) && negb (fulfilled_call c)) cs.

Definition is_lookup (rq : Request) : bool :=
  match rq with EntryGetMany _ | AssetGetMany _ => true | _ => false end.

Definition is_unpublish (rq : Request) : bool :=
  match rq with BulkActionUnpublish _ _ => true | _ => false end.

(** The kinds of request a setup run may send, and those a teardown run
    may send. *)
Definition setup_request (rq : Request) : bool :=
  creation_request rq || is_process rq || is_publish rq.

Definition teardown_request (rq : Request) : bool :=
  is_lookup rq || is_unpublish rq || is_delete rq.

(** The assets whose processing was requested, in order. *)
Fixpoint processing_requested (rqs : list Request) : list AssetProps :=
  match rqs with
  | [] => []
  | AssetProcessForAllLocales asset :: rqs' => asset :: processing_requested rqs'
  | _ :: rqs' => processing_requested rqs'
  end.

(** The assets the vendor returned from fulfilled tagging updates, in order. *)
Fixpoint tagging_answers (cs : list (Request * Settled Response)) : list AssetProps :=
  match cs with
  | [] => []
  | (AssetUpdate _ _, Fulfilled (GotAsset asset)) :: cs' => asset :: tagging_answers cs'
  | _ :: cs' => tagging_answers cs'
  end.

(** The ids a fulfilled lookup of the trace returned. *)
Fixpoint found_entry_ids (cs : list (Request * Settled Response)) : list string :=
  match cs with
  | [] => []
  | (EntryGetMany _, Fulfilled (GotEntries items)) :: cs' =>
      map (fun e => id (entry_sys e)) items ++ found_entry_ids cs'
  | _ :: cs' => found_entry_ids cs'
  end.

Fixpoint found_asset_ids (cs : list (Request * Settled Response)) : list string :=
  match cs with
  | [] => []
  | (AssetGetMany _, Fulfilled (GotAssets items)) :: cs' =>
      map (fun a => id (asset_sys a)) items ++ found_asset_ids cs'
  | _ :: cs' => found_asset_ids cs'
  end.

(** The request touches only the given entry ids and asset ids: a deletion
    by its id, a bulk unpublish by the ids of its links. *)
Definition touches_only (entry_ids asset_ids : list string) (rq : Request) : Prop :=
  match rq with
  | EntryDelete i => In i entry_ids
  | AssetDelete i => In i asset_ids
  | BulkActionUnpublish _ payload =>
      Forall (fun l =>
                (linkType l = "Entry" /\ In (link_id l) entry_ids) \/
                (linkType l = "Asset" /\ In (link_id l) asset_ids))
             (unpub_items payload)
  | _ => True
  end.

(** ** A vendor that refuses chosen requests

    It answers like the demo vendor, except that it rejects the requests
    that [broken] selects. *)

Module Faulty.

Definition refuse {A} (broken : Request -> bool) (rq : Request)
    (answer : Demo.W -> Settled A * Demo.W) (n : Demo.W) : Settled A * Demo.W :=
  if broken rq then (Rejected "refused", n) else answer n.

Definition client (found_entries found_assets : list string)
    (broken : Request -> bool) : PlainClient Demo.W :=
  let c := Demo.client found_entries found_assets Demo.no_failure in
  {| entry_getMany := fun q => refuse broken (EntryGetMany q) (entry_getMany c q);
     asset_getMany := fun q => refuse broken (AssetGetMany q) (asset_getMany c q);
     entry_delete := fun i => refuse broken (EntryDelete i) (entry_delete c i);
     asset_delete := fun i => refuse broken (AssetDelete i) (asset_delete c i);
     entry_create := fun t e => refuse broken (EntryCreate t e) (entry_create c t e);
     asset_createFromFiles := fun p =>
       refuse broken (AssetCreateFromFiles p) (asset_createFromFiles c p);
     asset_create := fun p => refuse broken (AssetCreate p) (asset_create c p);
     asset_processForAllLocales := fun a =>
       refuse broken (AssetProcessForAllLocales a) (asset_processForAllLocales c a);
     asset_update := fun i a => refuse broken (AssetUpdate i a) (asset_update c i a);
     bulkAction_publish := fun p pl =>
       refuse broken (BulkActionPublish p pl) (bulkAction_publish c p pl);
     bulkAction_unpublish := fun p pl =>
       refuse broken (BulkActionUnpublish p pl) (bulkAction_unpublish c p pl) |}.

(** The tagging update of the asset with id [i]. *)
Definition tagging_of (i : string) (rq : Request) : bool :=
  match rq with
  | AssetUpdate assetId _ => String.eqb assetId i
  | _ => false
  end.

Definition setup (broken : Request -> bool) (options : Options) : Outcome Demo.W unit :=
  setupCommand (client [] [] broken) Demo.faker (fun s => s) (fun s => s)
    (fun _ => "{}") "space" options 0.

Definition teardown (found_entries found_assets : list string)
    (broken : Request -> bool) (options : Options) : Outcome Demo.W unit :=
  teardownCommand (client found_entries found_assets broken) "space" options 0.

End Faulty.

(** * Properties *)

(** ** Traces and the promise combinators *)

Section Laws.

Context {W : Type}.

Lemma calls_app (t1 t2 : list Event) : calls (t1 ++ t2) = calls t1 ++ calls t2.
Proof.
  induction t1 as [|[message|rq rs] t1 IH]; simpl; [reflexivity|exact IH|].
  now rewrite IH.
Qed.

Lemma requests_app (t1 t2 : list Event) :
  requests (t1 ++ t2) = requests t1 ++ requests t2.
Proof. unfold requests. now rewrite calls_app, map_app. Qed.

Lemma calls_infos {A} (f : A -> string) (xs : list A) :
  calls (map (fun x => Info (f x)) xs) = [].
Proof. induction xs; simpl; auto. Qed.

Lemma settled_await {A B} (m : Async W A) (k : A -> Async W B) w :
  settled (await m k w) =
  match settled (m w) with
  | Fulfilled a => settled (k a (world (m w)))
  | Rejected e => Rejected e
  end.
Proof. unfold await. now destruct (settled (m w)). Qed.

Lemma world_await {A B} (m : Async W A) (k : A -> Async W B) w :
  world (await m k w) =
  match settled (m w) with
  | Fulfilled a => world (k a (world (m w)))
  | Rejected e => world (m w)
  end.
Proof. unfold await. now destruct (settled (m w)). Qed.

Lemma trace_await {A B} (m : Async W A) (k : A -> Async W B) w :
  trace (await m k w) =
  trace (m w) ++
  match settled (m w) with
  | Fulfilled a => trace (k a (world (m w)))
  | Rejected e => []
  end.
Proof.
  unfold await. destruct (settled (m w)); simpl; [reflexivity|].
  now rewrite app_nil_r.
Qed.

(** A fulfilled [await] went through both of its parts. *)
Lemma await_fulfilled {A B} (m : Async W A) (k : A -> Async W B) w b :
  settled (await m k w) = Fulfilled b ->
  exists a, settled (m w) = Fulfilled a /\
            settled (k a (world (m w))) = Fulfilled b /\
            world (await m k w) = world (k a (world (m w))) /\
            trace (await m k w) = trace (m w) ++ trace (k a (world (m w))).
Proof.
  rewrite settled_await, world_await, trace_await.
  destruct (settled (m w)) as [a|e]; [|discriminate].
  intros H. exists a. auto.
Qed.

Lemma is_fulfilled_await {A B} (m : Async W A) (k : A -> Async W B) w :
  is_fulfilled (settled (await m k w)) =
  match settled (m w) with
  | Fulfilled a => is_fulfilled (settled (k a (world (m w))))
  | Rejected _ => false
  end.
Proof. rewrite settled_await. now destruct (settled (m w)). Qed.

(** A join over computations that each make one call makes all the calls,
    in list order, and is fulfilled exactly when every call is. *)
Lemma promise_all_single_calls {A X} (m : X -> Async W A) (rq : X -> Request)
    (xs : list X) :
  (forall x w, exists rs,
      calls (trace (m x w)) = [(rq x, rs)] /\
      is_fulfilled rs = is_fulfilled (settled (m x w))) ->
  forall w,
    map fst (calls (trace (promise_all (map m xs) w))) = map rq xs /\
    is_fulfilled (settled (promise_all (map m xs) w)) =
      forallb fulfilled_call (calls (trace (promise_all (map m xs) w))).
Proof.
  intros Hm. induction xs as [|x xs IH]; intros w; [split; reflexivity|].
  cbn [map promise_all settled trace].
  destruct (Hm x w) as (rs & Hc & Hf).
  destruct (IH (world (m x w))) as (IHc & IHf).
  rewrite calls_app, Hc. cbn [app map fst forallb].
  rewrite IHc. split; [reflexivity|].
  rewrite <- IHf. unfold fulfilled_call at 1. cbn [snd]. rewrite Hf.
  destruct (settled (m x w)); [|reflexivity].
  now destruct (settled (promise_all (map m xs) (world (m x w)))).
Qed.

End Laws.


(** Unfolding one step of a run. *)
Ltac run_step :=
  rewrite ?trace_await, ?settled_await, ?world_await;
  cbn [info forEach_info call draw resolve settled trace world fst snd
       length Nat.eqb].

Section AccessLaws.

Context {W : Type}.
Variable client : PlainClient W.
Variable SPACE_ID : string.

Lemma publishItems_nil (w : W) :
  trace (publishItems client SPACE_ID [] w) = [Info "publishItems(items=[0])"] /\
  settled (publishItems client SPACE_ID [] w) = Fulfilled None /\
  world (publishItems client SPACE_ID [] w) = w.
Proof. repeat split. Qed.

Lemma publishItems_cons (item : Item) (items : ItemArray) (w : W) :
  let payload := mkPublishPayload "Array" (map publish_link (item :: items)) in
  let r := bulkAction_publish client (master SPACE_ID) payload w in
  calls (trace (publishItems client SPACE_ID (item :: items) w)) =
    [(BulkActionPublish (master SPACE_ID) payload, answered GotBulkAction (fst r))] /\
  settled (publishItems client SPACE_ID (item :: items) w) = answered Some (fst r) /\
  world (publishItems client SPACE_ID (item :: items) w) = snd r.
Proof.
  intros payload r. unfold publishItems.
  repeat run_step.
  fold payload. fold r.
  rewrite !calls_app, calls_infos.
  destruct (fst r); repeat split.
Qed.

Lemma unpublishItems_nil (type : string) (w : W) :
  calls (trace (unpublishItems client SPACE_ID [] type w)) = [] /\
  settled (unpublishItems client SPACE_ID [] type w) = Fulfilled None /\
  world (unpublishItems client SPACE_ID [] type w) = w.
Proof. repeat split. Qed.

Lemma unpublishItems_cons (i : string) (ids : list string) (type : string) (w : W) :
  let payload :=
    mkUnpublishPayload "Array" (map (fun id => mkLink type id) (i :: ids)) in
  let r := bulkAction_unpublish client (master SPACE_ID) payload w in
  calls (trace (unpublishItems client SPACE_ID (i :: ids) type w)) =
    [(BulkActionUnpublish (master SPACE_ID) payload, answered GotBulkAction (fst r))] /\
  settled (unpublishItems client SPACE_ID (i :: ids) type w) = answered Some (fst r) /\
  world (unpublishItems client SPACE_ID (i :: ids) type w) = snd r.
Proof.
  intros payload r. unfold unpublishItems.
  repeat run_step.
  fold payload. fold r.
  rewrite !calls_app, calls_infos.
  destruct (fst r); repeat split.
Qed.

Lemma is_fulfilled_answered {A B} (inj : A -> B) (r : Settled A) :
  is_fulfilled (answered inj r) = is_fulfilled r.
Proof. now destruct r. Qed.

Lemma tagAsset_run (asset : AssetProps) (tag : string) (w : W) :
  let r := asset_update client (id (asset_sys asset)) (retagged asset tag) w in
  calls (trace (tagAsset client asset tag w)) =
    [(AssetUpdate (id (asset_sys asset)) (retagged asset tag),
      answered GotAsset (fst r))] /\
  settled (tagAsset client asset tag w) = fst r /\
  world (tagAsset client asset tag w) = snd r.
Proof.
  intros r. unfold tagAsset.
  subst r. unfold retagged, tag_link. repeat run_step. cbn [asset_sys].
  destruct (asset_update client _ _ w) as [[a|e] w']; repeat run_step;
    repeat split.
Qed.

Lemma createAssetFromPicsum_run (meta : AssetMeta) (width height : Z)
    (locale tag : string) (w : W) :
  exists props,
    ca_metadata props = None /\
    let r := asset_create client props w in
    match fst r with
    | Rejected e =>
        calls (trace (createAssetFromPicsum client meta width height locale tag w)) =
          [(AssetCreate props, Rejected e)] /\
        settled (createAssetFromPicsum client meta width height locale tag w) =
          Rejected e
    | Fulfilled asset =>
        let u := asset_update client (id (asset_sys asset)) (retagged asset tag)
                   (snd r) in
        calls (trace (createAssetFromPicsum client meta width height locale tag w)) =
          [(AssetCreate props, Fulfilled (GotAsset asset));
           (AssetUpdate (id (asset_sys asset)) (retagged asset tag),
            answered GotAsset (fst u))] /\
        settled (createAssetFromPicsum client meta width height locale tag w) = fst u /\
        world (createAssetFromPicsum client meta width height locale tag w) = snd u
    end.
Proof.
  unfold createAssetFromPicsum.
  lazymatch goal with |- context [AssetCreate ?p] => exists p end.
  split; [reflexivity|]. cbv zeta. repeat run_step.
  destruct (asset_create client _ w) as [[asset|e] w1]; cbn [fst snd].
  - repeat run_step.
    destruct (tagAsset_run asset tag w1) as (Hc & Hs & Hw).
    rewrite Hs, Hw. rewrite !calls_app, Hc. repeat split.
  - repeat split.
Qed.

Lemma createAssetFromFile_run (meta : AssetMeta) (file locale tag : string) (w : W) :
  exists props,
    ca_metadata props = None /\
    let r := asset_createFromFiles client props w in
    match fst r with
    | Rejected e =>
        calls (trace (createAssetFromFile client meta file locale tag w)) =
          [(AssetCreateFromFiles props, Rejected e)] /\
        settled (createAssetFromFile client meta file locale tag w) = Rejected e
    | Fulfilled asset =>
        let u := asset_update client (id (asset_sys asset)) (retagged asset tag)
                   (snd r) in
        calls (trace (createAssetFromFile client meta file locale tag w)) =
          [(AssetCreateFromFiles props, Fulfilled (GotAsset asset));
           (AssetUpdate (id (asset_sys asset)) (retagged asset tag),
            answered GotAsset (fst u))] /\
        settled (createAssetFromFile client meta file locale tag w) = fst u /\
        world (createAssetFromFile client meta file locale tag w) = snd u
    end.
Proof.
  unfold createAssetFromFile.
  lazymatch goal with |- context [AssetCreateFromFiles ?p] => exists p end.
  split; [reflexivity|]. cbv zeta. repeat run_step.
  destruct (asset_createFromFiles client _ w) as [[asset|e] w1]; cbn [fst snd].
  - repeat run_step.
    destruct (tagAsset_run asset tag w1) as (Hc & Hs & Hw).
    rewrite Hs, Hw. rewrite !calls_app, Hc. repeat split.
  - repeat split.
Qed.

Lemma call_single {A} (rq : Request) (inj : A -> Response)
    (method : W -> Settled A * W) (w : W) :
  exists rs, calls (trace (call rq inj method w)) = [(rq, rs)] /\
             is_fulfilled rs = is_fulfilled (settled (call rq inj method w)).
Proof.
  eexists. split; [reflexivity|]. cbn [call settled]. apply is_fulfilled_answered.
Qed.

Lemma info_call_single {A} (message : string) (rq : Request) (inj : A -> Response)
    (method : W -> Settled A * W) (w : W) :
  exists rs,
    calls (trace (await (info message) (fun _ => call rq inj method) w)) = [(rq, rs)] /\
    is_fulfilled rs =
      is_fulfilled (settled (await (info message) (fun _ => call rq inj method) w)).
Proof.
  eexists. split; [reflexivity|]. repeat run_step. apply is_fulfilled_answered.
Qed.

Lemma deleteEntries_phase (ids : list string) (w : W) :
  map fst (calls (trace (deleteEntries client ids w))) = map EntryDelete ids /\
  is_fulfilled (settled (deleteEntries client ids w)) =
    forallb fulfilled_call (calls (trace (deleteEntries client ids w))).
Proof.
  unfold deleteEntries. rewrite is_fulfilled_await. repeat run_step.
  apply (promise_all_single_calls _ EntryDelete).
  intros x w'. apply info_call_single.
Qed.

Lemma deleteAssets_phase (ids : list string) (w : W) :
  map fst (calls (trace (deleteAssets client ids w))) = map AssetDelete ids /\
  is_fulfilled (settled (deleteAssets client ids w)) =
    forallb fulfilled_call (calls (trace (deleteAssets client ids w))).
Proof.
  unfold deleteAssets. rewrite is_fulfilled_await. repeat run_step.
  apply (promise_all_single_calls _ AssetDelete).
  intros x w'. apply info_call_single.
Qed.

Lemma processAssets_phase (assets : list AssetProps) (w : W) :
  map fst (calls (trace (processAssets client assets w))) =
    map AssetProcessForAllLocales assets /\
  is_fulfilled (settled (processAssets client assets w)) =
    forallb fulfilled_call (calls (trace (processAssets client assets w))).
Proof.
  unfold processAssets. rewrite is_fulfilled_await. repeat run_step.
  apply (promise_all_single_calls _ AssetProcessForAllLocales).
  intros x w'. apply call_single.
Qed.

Lemma unpublishItems_phase (ids : list string) (type : string) (w : W) :
  map fst (calls (trace (unpublishItems client SPACE_ID ids type w))) =
    unpublish_requests SPACE_ID type ids /\
  is_fulfilled (settled (unpublishItems client SPACE_ID ids type w)) =
    forallb fulfilled_call (calls (trace (unpublishItems client SPACE_ID ids type w))).
Proof.
  destruct ids as [|i ids].
  - split; reflexivity.
  - destruct (unpublishItems_cons i ids type w) as (Hc & Hs & _).
    rewrite Hc, Hs. split; [reflexivity|].
    cbn [forallb]. unfold fulfilled_call. cbn [snd].
    rewrite !is_fulfilled_answered. now rewrite andb_true_r.
Qed.

End AccessLaws.

(** ** Teardown *)

Section TeardownLaws.

Context {W : Type}.
Variable client : PlainClient W.
Variable SPACE_ID : string.

Lemma findTaggedEntries_run (tag : string) (w : W) :
  let r := entry_getMany client (tagged_query tag) w in
  calls (trace (findTaggedEntries client tag w)) =
    [(EntryGetMany (tagged_query tag), answered GotEntries (fst r))] /\
  settled (findTaggedEntries client tag w) =
    answered (map (fun entry => id (entry_sys entry))) (fst r) /\
  world (findTaggedEntries client tag w) = snd r.
Proof.
  intros r. subst r. unfold findTaggedEntries. repeat run_step.
  destruct (entry_getMany client _ w) as [[items|e] w1]; repeat split.
Qed.

Lemma findTaggedAssets_run (tag : string) (w : W) :
  let r := asset_getMany client (tagged_query tag) w in
  calls (trace (findTaggedAssets client tag w)) =
    [(AssetGetMany (tagged_query tag), answered GotAssets (fst r))] /\
  settled (findTaggedAssets client tag w) =
    answered (map (fun entry => id (asset_sys entry))) (fst r) /\
  world (findTaggedAssets client tag w) = snd r.
Proof.
  intros r. subst r. unfold findTaggedAssets. repeat run_step.
  destruct (asset_getMany client _ w) as [[items|e] w1]; repeat split.
Qed.

Lemma unpublishEntries_phase (ids : list string) (w : W) :
  map fst (calls (trace (unpublishEntries client SPACE_ID ids w))) =
    unpublish_requests SPACE_ID "Entry" ids /\
  is_fulfilled (settled (unpublishEntries client SPACE_ID ids w)) =
    forallb fulfilled_call (calls (trace (unpublishEntries client SPACE_ID ids w))).
Proof.
  unfold unpublishEntries. rewrite is_fulfilled_await. repeat run_step.
  apply unpublishItems_phase.
Qed.

Lemma unpublishAssets_phase (ids : list string) (w : W) :
  map fst (calls (trace (unpublishAssets client SPACE_ID ids w))) =
    unpublish_requests SPACE_ID "Asset" ids /\
  is_fulfilled (settled (unpublishAssets client SPACE_ID ids w)) =
    forallb fulfilled_call (calls (trace (unpublishAssets client SPACE_ID ids w))).
Proof.
  unfold unpublishAssets. rewrite is_fulfilled_await. repeat run_step.
  apply unpublishItems_phase.
Qed.

(** Two computations in sequence, the second not reading the first's value:
    the second one's calls follow the first one's, and only when the first
    was fulfilled. *)
Lemma then_phase {A B} (m : Async W A) (k : Async W B) (w : W) :
  is_fulfilled (settled (m w)) = forallb fulfilled_call (calls (trace (m w))) ->
  calls (trace (await m (fun _ => k) w)) =
    calls (trace (m w)) ++
    (if forallb fulfilled_call (calls (trace (m w)))
     then calls (trace (k (world (m w)))) else []) /\
  is_fulfilled (settled (await m (fun _ => k) w)) =
    (forallb fulfilled_call (calls (trace (m w))) &&
     is_fulfilled (settled (k (world (m w)))))%bool.
Proof.
  intros H. rewrite trace_await, calls_app, is_fulfilled_await, <- H.
  destruct (settled (m w)); split; reflexivity.
Qed.

Lemma teardown_after_lookup (entry_ids asset_ids : list string) (w : W) :
  let run :=
    (unpublishEntries client SPACE_ID entry_ids ;;
     unpublishAssets client SPACE_ID asset_ids ;;
     deleteEntries client entry_ids ;;
     deleteAssets client asset_ids ;;
     info "teardown finished")%async w in
  exists unpublishE unpublishA deleteE deleteA,
    map fst unpublishE = unpublish_requests SPACE_ID "Entry" entry_ids /\
    map fst unpublishA = unpublish_requests SPACE_ID "Asset" asset_ids /\
    map fst deleteE = map EntryDelete entry_ids /\
    map fst deleteA = map AssetDelete asset_ids /\
    calls (trace run) =
      phases_until_rejection [unpublishE; unpublishA; deleteE; deleteA] /\
    is_fulfilled (settled run) =
      forallb fulfilled_call (unpublishE ++ unpublishA ++ deleteE ++ deleteA).
Proof.
  intros run. subst run.
  set (o1 := unpublishEntries client SPACE_ID entry_ids w).
  set (o2 := unpublishAssets client SPACE_ID asset_ids (world o1)).
  set (o3 := deleteEntries client entry_ids (world o2)).
  set (o4 := deleteAssets client asset_ids (world o3)).
  destruct (unpublishEntries_phase entry_ids w) as (R1 & F1).
  destruct (unpublishAssets_phase asset_ids (world o1)) as (R2 & F2).
  destruct (deleteEntries_phase client entry_ids (world o2)) as (R3 & F3).
  destruct (deleteAssets_phase client asset_ids (world o3)) as (R4 & F4).
  exists (calls (trace o1)), (calls (trace o2)), (calls (trace o3)),
         (calls (trace o4)).
  repeat (split; [assumption|]).
  destruct (then_phase (unpublishEntries client SPACE_ID entry_ids)
              (unpublishAssets client SPACE_ID asset_ids ;;
               deleteEntries client entry_ids ;;
               deleteAssets client asset_ids ;;
               info "teardown finished")%async w F1) as (C1 & S1).
  destruct (then_phase (unpublishAssets client SPACE_ID asset_ids)
              (deleteEntries client entry_ids ;;
               deleteAssets client asset_ids ;;
               info "teardown finished")%async (world o1) F2) as (C2 & S2).
  destruct (then_phase (deleteEntries client entry_ids)
              (deleteAssets client asset_ids ;;
               info "teardown finished")%async (world o2) F3) as (C3 & S3).
  destruct (then_phase (deleteAssets client asset_ids)
              (info "teardown finished") (world o3) F4) as (C4 & S4).
  fold o1 in C1, S1. fold o2 in C1, S1, C2, S2. fold o3 in C2, S2, C3, S3.
  fold o4 in C3, S3, C4, S4.
  rewrite C1, S1, C2, S2, C3, S3, C4, S4.
  cbn [phases_until_rejection info settled trace calls is_fulfilled].
  rewrite ?forallb_app, ?andb_true_r.
  split; reflexivity.
Qed.

End TeardownLaws.

(** ** Setup *)

(** Inverting a fulfilled [await] in hypothesis [H]. *)
Ltac await_inv H a Ha :=
  let T := fresh "T" in
  apply await_fulfilled in H;
  destruct H as (a & Ha & H & _ & T);
  rewrite T; clear T;
  cbn [draw info resolve trace world settled fst snd] in *.

Section SetupLaws.

Context {W : Type}.
Variable client : PlainClient W.
Variable faker : Faker W.
Variables snakeCase kebabCase : string -> string.
Variable JSON_stringify : Fields -> string.
Variable SPACE_ID : string.

Lemma createEntry_run (contentTypeId : string) (value : Fields) (tag : string) (w : W) :
  let entry := mkCreateEntry value (Some (mkMetadata [mkLink "Tag" tag])) in
  let r := entry_create client contentTypeId entry w in
  calls (trace (createEntry client JSON_stringify contentTypeId value tag w)) =
    [(EntryCreate contentTypeId entry, answered GotEntry (fst r))] /\
  settled (createEntry client JSON_stringify contentTypeId value tag w) = fst r /\
  world (createEntry client JSON_stringify contentTypeId value tag w) = snd r.
Proof.
  intros entry r. subst entry r. unfold createEntry, tag_link. repeat run_step.
  repeat split.
Qed.

Lemma createAssetFromPicsum_fulfilled (meta : AssetMeta) (width height : Z)
    (locale tag : string) (w : W) (image : AssetProps) :
  settled (createAssetFromPicsum client meta width height locale tag w) =
    Fulfilled image ->
  exists props created,
    ca_metadata props = None /\
    calls (trace (createAssetFromPicsum client meta width height locale tag w)) =
      [(AssetCreate props, Fulfilled (GotAsset created));
       (AssetUpdate (id (asset_sys created)) (retagged created tag),
        Fulfilled (GotAsset image))].
Proof.
  intros H.
  destruct (createAssetFromPicsum_run client meta width height locale tag w)
    as (props & Hnone & Hrun).
  cbv zeta in Hrun. exists props.
  destruct (fst (asset_create client props w)) as [created|e].
  - destruct Hrun as (Hc & Hs & _). exists created. split; [assumption|].
    rewrite Hc. rewrite Hs in H. now rewrite H.
  - destruct Hrun as (_ & Hs). congruence.
Qed.

Lemma createTestEntry_fulfilled (locale tag : string) (w : W) (items : Items) :
  settled (createTestEntry client faker snakeCase kebabCase JSON_stringify
             locale tag w) = Fulfilled items ->
  exists it,
    items = mkItems [it_image it] (iteration_entries it) /\
    calls (trace (createTestEntry client faker snakeCase kebabCase JSON_stringify
                    locale tag w)) = iteration_calls tag it /\
    ca_metadata (it_assetProps it) = None /\
    links_closed locale it.
Proof.
  unfold createTestEntry. intros H.
  await_inv H name Hname.
  await_inv H image Himage.
  apply createAssetFromPicsum_fulfilled in Himage.
  destruct Himage as (props & created & Hnone & Hcalls).
  await_inv H u Hu. clear u Hu.
  await_inv H houseNumberAndStreet Hh.
  await_inv H town Ht.
  await_inv H county Hc.
  await_inv H postcode Hp.
  await_inv H address Haddress.
  await_inv H u Hu. clear u Hu.
  await_inv H article Harticle.
  await_inv H u Hu. clear u Hu.
  injection H as <-.
  lazymatch type of Haddress with
  | settled (createEntry _ _ _ ?fields _ ?w1) = _ =>
      destruct (createEntry_run "address" fields tag w1) as (Ca & Sa & _)
  end.
  lazymatch type of Harticle with
  | settled (createEntry _ _ _ ?fields _ ?w1) = _ =>
      destruct (createEntry_run "article" fields tag w1) as (Cb & Sb & _);
      exists (mkIteration props created image
                {[ "houseNumberAndStreet" := {[ locale := FText houseNumberAndStreet ]};
                   "town" := {[ locale := FText town ]};
                   "county" := {[ locale := FText county ]};
                   "postcode" := {[ locale := FText postcode ]} ]}
                address fields article)
  end.
  rewrite Sa in Haddress. rewrite Sb in Harticle.
  rewrite Haddress in Ca. rewrite Harticle in Cb.
  split; [reflexivity|]. split; [|split; [assumption|]].
  - rewrite !calls_app, Hcalls, Ca, Cb. reflexivity.
  - split; reflexivity.
Qed.

Lemma forallb_requests_await {A B} (P : Request -> bool) (m : Async W A)
    (k : A -> Async W B) (w : W) :
  forallb P (requests (trace (m w))) = true ->
  (forall a w', forallb P (requests (trace (k a w'))) = true) ->
  forallb P (requests (trace (await m k w))) = true.
Proof.
  intros Hm Hk. rewrite trace_await, requests_app, forallb_app, Hm.
  destruct (settled (m w)); [apply Hk|reflexivity].
Qed.

Lemma createAssetFromPicsum_creates (meta : AssetMeta) (width height : Z)
    (locale tag : string) (w : W) :
  forallb creation_request
    (requests (trace (createAssetFromPicsum client meta width height locale tag w)))
  = true.
Proof.
  destruct (createAssetFromPicsum_run client meta width height locale tag w)
    as (props & _ & Hrun).
  cbv zeta in Hrun. unfold requests.
  destruct (fst (asset_create client props w)) as [created|e].
  - destruct Hrun as (Hc & _). now rewrite Hc.
  - destruct Hrun as (Hc & _). now rewrite Hc.
Qed.

Lemma createEntry_creates (contentTypeId : string) (value : Fields) (tag : string)
    (w : W) :
  forallb creation_request
    (requests (trace (createEntry client JSON_stringify contentTypeId value tag w)))
  = true.
Proof.
  destruct (createEntry_run contentTypeId value tag w) as (Hc & _).
  unfold requests. now rewrite Hc.
Qed.

Lemma createTestEntry_creates (locale tag : string) (w : W) :
  forallb creation_request
    (requests (trace (createTestEntry client faker snakeCase kebabCase
                        JSON_stringify locale tag w))) = true.
Proof.
  unfold createTestEntry.
  repeat (apply forallb_requests_await;
          [first [ reflexivity
                 | apply createAssetFromPicsum_creates
                 | apply createEntry_creates ]
          | intros ? ? ]).
  reflexivity.
Qed.

Lemma setupCommand_loop_creates (n : nat) (locale tag : string) (acc : Items) (w : W) :
  forallb creation_request
    (requests (trace (setupCommand_loop client faker snakeCase kebabCase
                        JSON_stringify n locale tag acc w))) = true.
Proof.
  revert acc w. induction n as [|n IH]; intros acc w; [reflexivity|].
  cbn [setupCommand_loop]. apply forallb_requests_await.
  - apply createTestEntry_creates.
  - intros created w'. apply IH.
Qed.

Lemma setupCommand_loop_fulfilled (n : nat) (locale tag : string) (acc : Items)
    (w : W) (items : Items) :
  settled (setupCommand_loop client faker snakeCase kebabCase JSON_stringify
             n locale tag acc w) = Fulfilled items ->
  exists its,
    length its = n /\
    items = mkItems (assets acc ++ map it_image its)
                    (entries acc ++ flat_map iteration_entries its) /\
    calls (trace (setupCommand_loop client faker snakeCase kebabCase JSON_stringify
                    n locale tag acc w)) = flat_map (iteration_calls tag) its /\
    Forall (fun it => ca_metadata (it_assetProps it) = None) its /\
    Forall (links_closed locale) its.
Proof.
  revert acc w. induction n as [|n IH]; intros acc w H.
  - injection H as <-. exists []. cbn [map flat_map]. rewrite !app_nil_r.
    destruct acc. repeat split; constructor.
  - cbn [setupCommand_loop] in *.
    apply await_fulfilled in H. destruct H as (created & Hc & H & _ & T).
    rewrite T. clear T.
    apply createTestEntry_fulfilled in Hc.
    destruct Hc as (it & -> & Hcalls & Hnone & Hlinks).
    apply IH in H. destruct H as (its & Hlen & -> & Hrest & Hnones & Hlinkss).
    exists (it :: its). rewrite calls_app, Hcalls, Hrest.
    cbn [length map flat_map assets entries]. rewrite <- !app_assoc.
    repeat split; auto.
Qed.

Lemma promise_all_process_fulfilled (assets : list AssetProps) (w : W)
    (processed : list AssetProps) :
  settled (promise_all
             (map (fun asset =>
                     call (AssetProcessForAllLocales asset) GotAsset
                       (asset_processForAllLocales client asset)) assets) w)
    = Fulfilled processed ->
  calls (trace (promise_all
                  (map (fun asset =>
                          call (AssetProcessForAllLocales asset) GotAsset
                            (asset_processForAllLocales client asset)) assets) w))
    = process_calls assets processed /\
  length processed = length assets.
Proof.
  revert w processed. induction assets as [|a assets IH]; intros w processed H.
  - injection H as <-. split; reflexivity.
  - cbn [map promise_all settled trace call world fst snd] in *.
    destruct (fst (asset_processForAllLocales client a w)) as [p|e];
      [|discriminate].
    match type of H with
    | match settled ?o with _ => _ end = _ => destruct (settled o) as [l|e] eqn:E
    end; [|discriminate].
    injection H as <-. apply IH in E. destruct E as (Hc & Hl).
    cbn [length app calls answered process_calls]. rewrite Hc, Hl.
    split; reflexivity.
Qed.

Lemma processAssets_fulfilled (assets : list AssetProps) (w : W)
    (processed : list AssetProps) :
  settled (processAssets client assets w) = Fulfilled processed ->
  calls (trace (processAssets client assets w)) = process_calls assets processed /\
  length processed = length assets.
Proof.
  unfold processAssets. intros H.
  await_inv H u Hu. clear u Hu.
  apply promise_all_process_fulfilled in H. destruct H as (Hc & Hl).
  rewrite calls_app, Hc. split; [reflexivity|assumption].
Qed.

(** The calls of a setup run, phase by phase. *)
Lemma setupCommand_calls (options : Options) (w : W) :
  let o1 := setupCommand_loop client faker snakeCase kebabCase JSON_stringify
              10 (locale options) (tag options) (mkItems [] []) w in
  calls (trace (setupCommand client faker snakeCase kebabCase JSON_stringify
                  SPACE_ID options w)) =
    calls (trace o1) ++
    match settled o1 with
    | Rejected _ => []
    | Fulfilled allCreatedItems =>
        let o2 := processAssets client (assets allCreatedItems) (world o1) in
        calls (trace o2) ++
        match settled o2 with
        | Rejected _ => []
        | Fulfilled allProcessedAssets =>
            calls (trace (publishItems client SPACE_ID
                            (map EntryItem (entries allCreatedItems) ++
                             map AssetItem allProcessedAssets) (world o2)))
        end
    end /\
  is_fulfilled (settled (setupCommand client faker snakeCase kebabCase
                           JSON_stringify SPACE_ID options w)) =
    match settled o1 with
    | Rejected _ => false
    | Fulfilled allCreatedItems =>
        let o2 := processAssets client (assets allCreatedItems) (world o1) in
        match settled o2 with
        | Rejected _ => false
        | Fulfilled allProcessedAssets =>
            is_fulfilled
              (settled (publishItems client SPACE_ID
                          (map EntryItem (entries allCreatedItems) ++
                           map AssetItem allProcessedAssets) (world o2)))
        end
    end.
Proof.
  intros o1. subst o1. unfold setupCommand.
  rewrite trace_await, is_fulfilled_await.
  cbn [info settled trace world app calls].
  rewrite trace_await, is_fulfilled_await, calls_app.
  destruct (settled (setupCommand_loop _ _ _ _ _ _ _ _ _ w)) as [all|e];
    [|split; reflexivity].
  cbv zeta.
  rewrite trace_await, is_fulfilled_await, calls_app.
  destruct (settled (processAssets client (assets all) _)) as [processed|e];
    [|split; reflexivity].
  rewrite trace_await, is_fulfilled_await, calls_app.
  destruct (settled (publishItems _ _ _ _)); cbn [info trace settled calls];
    rewrite ?app_nil_r; split; reflexivity.
Qed.

End SetupLaws.

(** ** The access module's contracts *)

Section AccessContracts.

Context {W : Type}.
Variable client : PlainClient W.
Variable SPACE_ID : string.

(** C4: on the empty list [publishItems] and [unpublishItems] send no
    request at all to the vendor and are fulfilled (with [undefined]); on a
    list with at least one element each sends exactly one request, the bulk
    action. *)
Theorem empty_bulk_is_noop_and_nonempty_is_single
    (item : Item) (items : ItemArray) (i : string) (ids : list string)
    (type : string) (w : W) :
  (requests (trace (publishItems client SPACE_ID [] w)) = [] /\
   settled (publishItems client SPACE_ID [] w) = Fulfilled None) /\
  (requests (trace (unpublishItems client SPACE_ID [] type w)) = [] /\
   settled (unpublishItems client SPACE_ID [] type w) = Fulfilled None) /\
  (exists payload,
     requests (trace (publishItems client SPACE_ID (item :: items) w)) =
       [BulkActionPublish (mkBulkParams SPACE_ID "master") payload]) /\
  (exists payload,
     requests (trace (unpublishItems client SPACE_ID (i :: ids) type w)) =
       [BulkActionUnpublish (mkBulkParams SPACE_ID "master") payload]).
Proof.
  split; [split; reflexivity|]. split; [split; reflexivity|]. split.
  - destruct (publishItems_cons client SPACE_ID item items w) as (Hc & _).
    eexists. unfold requests. rewrite Hc. reflexivity.
  - destruct (unpublishItems_cons client SPACE_ID i ids type w) as (Hc & _).
    eexists. unfold requests. rewrite Hc. reflexivity.
Qed.

(** C9: for a non-empty list [publishItems] sends exactly one request, a
    bulk publish whose payload has one link per item, in the order of the
    list, the link at each position carrying the [sys.id], [sys.version] and
    [sys.type] (as link type) of the item at that position. *)
Theorem publishItems_payload_links (item : Item) (items : ItemArray) (w : W) :
  exists payload,
    requests (trace (publishItems client SPACE_ID (item :: items) w)) =
      [BulkActionPublish (mkBulkParams SPACE_ID "master") payload] /\
    length (pub_items payload) = length (item :: items) /\
    forall n : nat,
      pub_items payload !! n =
      (fun it => mkVersionedLink (type (sys it)) (id (sys it)) (version (sys it)))
        <$> (item :: items) !! n.
Proof.
  destruct (publishItems_cons client SPACE_ID item items w) as (Hc & _).
  eexists. unfold requests. rewrite Hc. split; [reflexivity|].
  cbn [pub_items]. split.
  - now rewrite length_map.
  - intros n. now rewrite list_lookup_fmap.
Qed.

(** C6: [createAssetFromPicsum] and [createAssetFromFile] first send a
    creation request whose payload has no metadata, hence no tag.  When that
    is rejected, nothing else is sent and the function is rejected.  When it
    is fulfilled with an asset, a second, separate request updates that asset
    with its metadata set to the one tag link, and the function settles the
    way the update does: fulfilled, it returns the asset the update
    returned. *)
Theorem asset_creation_is_create_then_update
    (meta : AssetMeta) (width height : Z) (file locale tag : string) (w : W) :
  (exists props,
     ca_metadata props = None /\
     match asset_create client props w with
     | (Rejected e, _) =>
         calls (trace (createAssetFromPicsum client meta width height locale tag w)) =
           [(AssetCreate props, Rejected e)] /\
         settled (createAssetFromPicsum client meta width height locale tag w) =
           Rejected e
     | (Fulfilled asset, w') =>
         let update :=
           mkAsset (asset_sys asset) (asset_fields asset)
             (Some (mkMetadata [mkLink "Tag" tag])) in
         let u := asset_update client (id (asset_sys asset)) update w' in
         calls (trace (createAssetFromPicsum client meta width height locale tag w)) =
           [(AssetCreate props, Fulfilled (GotAsset asset));
            (AssetUpdate (id (asset_sys asset)) update, answered GotAsset (fst u))] /\
         settled (createAssetFromPicsum client meta width height locale tag w) =
           fst u
     end) /\
  (exists props,
     ca_metadata props = None /\
     match asset_createFromFiles client props w with
     | (Rejected e, _) =>
         calls (trace (createAssetFromFile client meta file locale tag w)) =
           [(AssetCreateFromFiles props, Rejected e)] /\
         settled (createAssetFromFile client meta file locale tag w) = Rejected e
     | (Fulfilled asset, w') =>
         let update :=
           mkAsset (asset_sys asset) (asset_fields asset)
             (Some (mkMetadata [mkLink "Tag" tag])) in
         let u := asset_update client (id (asset_sys asset)) update w' in
         calls (trace (createAssetFromFile client meta file locale tag w)) =
           [(AssetCreateFromFiles props, Fulfilled (GotAsset asset));
            (AssetUpdate (id (asset_sys asset)) update, answered GotAsset (fst u))] /\
         settled (createAssetFromFile client meta file locale tag w) = fst u
     end).
Proof.
  split.
  - destruct (createAssetFromPicsum_run client meta width height locale tag w)
      as (props & Hnone & Hrun).
    exists props. split; [assumption|]. cbv zeta in Hrun.
    destruct (asset_create client props w) as [[asset|e] w']; cbn [fst snd] in Hrun.
    + destruct Hrun as (Hc & Hs & _). split; assumption.
    + assumption.
  - destruct (createAssetFromFile_run client meta file locale tag w)
      as (props & Hnone & Hrun).
    exists props. split; [assumption|]. cbv zeta in Hrun.
    destruct (asset_createFromFiles client props w) as [[asset|e] w'];
      cbn [fst snd] in Hrun.
    + destruct Hrun as (Hc & Hs & _). split; assumption.
    + assumption.
Qed.

(** C8: whatever metadata an asset already has, [tagAsset] sends it with its
    tag list replaced by the single link to the tag; so tagging again the
    asset that a first [tagAsset] returned, with the same tag, sends a payload
    with exactly one tag link. *)
Theorem tagAsset_replaces_tags (asset updated : AssetProps) (tag : string) (w : W) :
  settled (tagAsset client asset tag w) = Fulfilled updated ->
  exists payload,
    requests (trace (tagAsset client updated tag (world (tagAsset client asset tag w))))
      = [AssetUpdate (id (asset_sys updated)) payload] /\
    asset_metadata payload = Some (mkMetadata [mkLink "Tag" tag]) /\
    (length <$> (tags <$> asset_metadata payload)) = Some 1.
Proof.
  intros _.
  destruct (tagAsset_run client updated tag (world (tagAsset client asset tag w)))
    as (Hc & _).
  exists (retagged updated tag). unfold requests. rewrite Hc.
  repeat split.
Qed.

End AccessContracts.

(** The demo vendor echoes the metadata, so the asset returned by the first
    tagging already carries the tag when it is tagged again. *)
Lemma tagAsset_replaces_tags_witness :
  let asset := mkAsset (mkSys "a0" 1 "Asset") ∅ None in
  let c := Demo.client [] [] Demo.no_failure in
  let updated := mkAsset (mkSys "a0" 2 "Asset") ∅
                   (Some (mkMetadata [mkLink "Tag" "demo"])) in
  settled (tagAsset c asset "demo" (0 : Demo.W)) = Fulfilled updated /\
  exists payload,
    requests (trace (tagAsset c updated "demo"
                       (world (tagAsset c asset "demo" (0 : Demo.W)))))
      = [AssetUpdate (id (asset_sys updated)) payload] /\
    asset_metadata payload = Some (mkMetadata [mkLink "Tag" "demo"]) /\
    (length <$> (tags <$> asset_metadata payload)) = Some 1.
Proof.
  intros asset c updated.
  assert (H : settled (tagAsset c asset "demo" (0 : Demo.W)) = Fulfilled updated)
    by reflexivity.
  split; [exact H|].
  exact (tagAsset_replaces_tags c asset updated "demo" 0 H).
Defined.

(** ** The teardown workflow's contracts *)

Section TeardownContracts.

Context {W : Type}.
Variable client : PlainClient W.
Variable SPACE_ID : string.

(** C3: when the two lookups of a teardown run find entries and assets, the
    calls that follow are those of four phases in this order: the bulk
    unpublish of the found entries, the bulk unpublish of the found assets,
    the deletions of the found entries, the deletions of the found assets.
    A phase sends all of its requests, and a phase is entered only when every
    call of the phase before it was fulfilled; the run is fulfilled exactly
    when every call of the four phases is. *)
Theorem teardown_phases_in_order (options : Options) (w w1 w2 : W)
    (found_entries : list EntryProps) (found_assets : list AssetProps) :
  entry_getMany client (tagged_query (tag options)) w = (Fulfilled found_entries, w1) ->
  asset_getMany client (tagged_query (tag options)) w1 = (Fulfilled found_assets, w2) ->
  let entry_ids := map (fun e => id (entry_sys e)) found_entries in
  let asset_ids := map (fun a => id (asset_sys a)) found_assets in
  exists unpublishE unpublishA deleteE deleteA,
    map fst unpublishE = unpublish_requests SPACE_ID "Entry" entry_ids /\
    map fst unpublishA = unpublish_requests SPACE_ID "Asset" asset_ids /\
    map fst deleteE = map EntryDelete entry_ids /\
    map fst deleteA = map AssetDelete asset_ids /\
    calls (trace (teardownCommand client SPACE_ID options w)) =
      [(EntryGetMany (tagged_query (tag options)), Fulfilled (GotEntries found_entries));
       (AssetGetMany (tagged_query (tag options)), Fulfilled (GotAssets found_assets))]
      ++ phases_until_rejection [unpublishE; unpublishA; deleteE; deleteA] /\
    is_fulfilled (settled (teardownCommand client SPACE_ID options w)) =
      forallb fulfilled_call (unpublishE ++ unpublishA ++ deleteE ++ deleteA).
Proof.
  intros He Ha entry_ids asset_ids.
  destruct (findTaggedEntries_run client (tag options) w) as (Ce & Se & We).
  rewrite He in Ce, Se, We. cbn [fst snd answered] in Ce, Se, We.
  destruct (findTaggedAssets_run client (tag options) w1) as (Ca & Sa & Wa).
  rewrite Ha in Ca, Sa, Wa. cbn [fst snd answered] in Ca, Sa, Wa.
  destruct (teardown_after_lookup client SPACE_ID entry_ids asset_ids w2)
    as (uE & uA & dE & dA & R1 & R2 & R3 & R4 & Hc & Hs).
  exists uE, uA, dE, dA. repeat (split; [assumption|]).
  unfold teardownCommand.
  rewrite trace_await, is_fulfilled_await.
  cbn [info settled trace world app calls].
  rewrite trace_await, is_fulfilled_await, calls_app, Ce, Se, We.
  rewrite trace_await, is_fulfilled_await, calls_app, Ca, Sa, Wa.
  fold entry_ids asset_ids. rewrite Hc, Hs. split; reflexivity.
Qed.

(** C10: when the tag matches no entry and no asset, a teardown run sends
    the two lookups and nothing else (no bulk action, no deletion) and is
    fulfilled. *)
Theorem teardown_nothing_found_is_noop (options : Options) (w w1 w2 : W) :
  entry_getMany client (tagged_query (tag options)) w = (Fulfilled [], w1) ->
  asset_getMany client (tagged_query (tag options)) w1 = (Fulfilled [], w2) ->
  requests (trace (teardownCommand client SPACE_ID options w)) =
    [EntryGetMany (tagged_query (tag options));
     AssetGetMany (tagged_query (tag options))] /\
  List.filter is_bulk_action
    (requests (trace (teardownCommand client SPACE_ID options w))) = [] /\
  List.filter is_delete
    (requests (trace (teardownCommand client SPACE_ID options w))) = [] /\
  settled (teardownCommand client SPACE_ID options w) = Fulfilled tt.
Proof.
  intros He Ha.
  assert (Hrun :
    requests (trace (teardownCommand client SPACE_ID options w)) =
      [EntryGetMany (tagged_query (tag options));
       AssetGetMany (tagged_query (tag options))] /\
    settled (teardownCommand client SPACE_ID options w) = Fulfilled tt).
  { unfold teardownCommand, findTaggedEntries, findTaggedAssets, requests.
    repeat run_step. rewrite He. repeat run_step. rewrite Ha.
    repeat run_step. split; reflexivity. }
  destruct Hrun as (Hr & Hs). rewrite Hr. repeat split. exact Hs.
Qed.

End TeardownContracts.

Lemma teardown_phases_in_order_witness :
  exists unpublishE unpublishA deleteE deleteA,
    map fst unpublishE = unpublish_requests "space" "Entry" ["e1"; "e2"] /\
    map fst unpublishA = unpublish_requests "space" "Asset" ["a1"] /\
    map fst deleteE = map EntryDelete ["e1"; "e2"] /\
    map fst deleteA = map AssetDelete ["a1"] /\
    calls (trace (Demo.teardown ["e1"; "e2"] ["a1"] Demo.demo_options)) =
      [(EntryGetMany (tagged_query "demo"),
        Fulfilled (GotEntries [mkEntry (mkSys "e1" 1 "Entry") ∅ None;
                               mkEntry (mkSys "e2" 1 "Entry") ∅ None]));
       (AssetGetMany (tagged_query "demo"),
        Fulfilled (GotAssets [mkAsset (mkSys "a1" 1 "Asset") ∅ None]))]
      ++ phases_until_rejection [unpublishE; unpublishA; deleteE; deleteA] /\
    is_fulfilled (settled (Demo.teardown ["e1"; "e2"] ["a1"] Demo.demo_options)) =
      forallb fulfilled_call (unpublishE ++ unpublishA ++ deleteE ++ deleteA).
Proof.
  exact (teardown_phases_in_order
           (Demo.client ["e1"; "e2"] ["a1"] Demo.no_failure) "space"
           Demo.demo_options 0 0 0
           [mkEntry (mkSys "e1" 1 "Entry") ∅ None;
            mkEntry (mkSys "e2" 1 "Entry") ∅ None]
           [mkAsset (mkSys "a1" 1 "Asset") ∅ None]
           eq_refl eq_refl).
Defined.

Lemma teardown_nothing_found_is_noop_witness :
  requests (trace (Demo.teardown [] [] Demo.demo_options)) =
    [EntryGetMany (tagged_query "demo"); AssetGetMany (tagged_query "demo")] /\
  List.filter is_bulk_action
    (requests (trace (Demo.teardown [] [] Demo.demo_options))) = [] /\
  List.filter is_delete
    (requests (trace (Demo.teardown [] [] Demo.demo_options))) = [] /\
  settled (Demo.teardown [] [] Demo.demo_options) = Fulfilled tt.
Proof.
  exact (teardown_nothing_found_is_noop
           (Demo.client [] [] Demo.no_failure) "space" Demo.demo_options 0 0 0
           eq_refl eq_refl).
Defined.

(** ** The setup workflow's contracts *)

Section SetupContracts.

Context {W : Type}.
Variable client : PlainClient W.
Variable faker : Faker W.
Variables snakeCase kebabCase : string -> string.
Variable JSON_stringify : Fields -> string.
Variable SPACE_ID : string.

(** A fulfilled setup run, call by call: ten iterations of create, tag,
    address, article; the processing of the ten images; one bulk publish of
    the twenty entries and the ten processed assets. *)
Lemma setupCommand_fulfilled (options : Options) (w : W) :
  settled (setupCommand client faker snakeCase kebabCase JSON_stringify
                SPACE_ID options w) = Fulfilled tt ->
  exists its processed bulk,
    length its = 10 /\
    length processed = 10 /\
    Forall (fun it => ca_metadata (it_assetProps it) = None) its /\
    Forall (links_closed (locale options)) its /\
    calls (trace (setupCommand client faker snakeCase kebabCase JSON_stringify
                SPACE_ID options w)) =
      flat_map (iteration_calls (tag options)) its ++
      process_calls (map it_image its) processed ++
      [(BulkActionPublish (mkBulkParams SPACE_ID "master")
          (mkPublishPayload "Array"
             (map publish_link
                (map EntryItem (flat_map iteration_entries its) ++
                 map AssetItem processed))),
        Fulfilled (GotBulkAction bulk))].
Proof.
  intros H.
  destruct (setupCommand_calls client faker snakeCase kebabCase JSON_stringify
              SPACE_ID options w) as (Hc & Hs).
  cbv zeta in Hc, Hs. rewrite H in Hs. cbn [is_fulfilled] in Hs.
  rewrite Hc. clear Hc.
  destruct (settled (setupCommand_loop _ _ _ _ _ _ _ _ _ w)) as [all|e] eqn:E1;
    [|discriminate].
  apply setupCommand_loop_fulfilled in E1.
  destruct E1 as (its & Hlen & -> & -> & Hnone & Hlinks).
  cbn [assets entries app] in *.
  destruct (settled (processAssets _ _ _)) as [processed|e] eqn:E2;
    [|discriminate].
  apply processAssets_fulfilled in E2. destruct E2 as (-> & Hlp).
  rewrite length_map, Hlen in Hlp.
  destruct its as [|it its]; [discriminate|].
  cbn [flat_map iteration_entries app map] in Hs |- *.
  match type of Hs with
  | context [publishItems _ _ (?i :: ?l) ?w'] =>
      destruct (publishItems_cons client SPACE_ID i l w') as (Hp & Hps & _)
  end.
  rewrite Hps in Hs. rewrite Hp.
  destruct (fst (bulkAction_publish _ _ _ _)) as [bulk|e]; [|discriminate].
  exists (it :: its), processed, bulk.
  repeat (split; [assumption|]). reflexivity.
Qed.

Lemma published_sizes_app (l1 l2 : list Request) :
  published_sizes (l1 ++ l2) = published_sizes l1 ++ published_sizes l2.
Proof.
  induction l1 as [|rq l1 IH]; [reflexivity|].
  destruct rq; cbn [app published_sizes]; rewrite ?IH; reflexivity.
Qed.

Lemma requests_flat_map_iterations (tag : string) (its : list Iteration) :
  map fst (flat_map (iteration_calls tag) its) =
  flat_map (fun it => map fst (iteration_calls tag it)) its.
Proof.
  induction its as [|it its IH]; [reflexivity|].
  cbn [flat_map]. now rewrite map_app, IH.
Qed.

Lemma requests_process_calls (assets processed : list AssetProps) :
  forallb is_process (map fst (process_calls assets processed)) = true.
Proof.
  revert processed. induction assets as [|a assets IH]; intros [|p processed];
    try reflexivity.
  cbn [process_calls map fst forallb is_process]. apply IH.
Qed.

(** Counting, in a fulfilled run, the requests of a kind that occurs once
    per iteration and neither in the processing nor in the publishing. *)
Lemma count_once_per_iteration (P : Request -> bool) (tag : string)
    (its : list Iteration) (assets processed : list AssetProps) (last : Request) :
  (forall it, length (List.filter P (map fst (iteration_calls tag it))) = 1) ->
  (forall rq, is_process rq = true -> P rq = false) ->
  P last = false ->
  length (List.filter P
            (map fst (flat_map (iteration_calls tag) its) ++
             map fst (process_calls assets processed) ++ [last])) = length its.
Proof.
  intros Hit Hproc Hlast.
  rewrite !List.filter_app, !length_app. cbn [List.filter]. rewrite Hlast.
  cbn [length].
  assert (Hp : List.filter P (map fst (process_calls assets processed)) = []).
  { pose proof (requests_process_calls assets processed) as Hall.
    induction (map fst (process_calls assets processed)) as [|rq l IH];
      [reflexivity|].
    cbn [forallb] in Hall. apply andb_prop in Hall. destruct Hall as (Hrq & Hl).
    cbn [List.filter]. rewrite (Hproc rq Hrq). now apply IH. }
  rewrite Hp. cbn [length]. rewrite !Nat.add_0_r.
  rewrite requests_flat_map_iterations.
  induction its as [|it its IH]; [reflexivity|].
  cbn [flat_map]. rewrite List.filter_app, length_app, Hit, IH. reflexivity.
Qed.

(** C1, amended: a fulfilled setup run with tag T sends exactly ten requests
    creating an address entry, ten creating an article entry, ten creating an
    image asset and ten tagging updates; every entry creation and every asset
    update attaches exactly the tag T; and the run ends with one bulk publish
    whose payload links thirty items, the twenty created entries and the ten
    processed assets. *)
Theorem setup_creates_tags_and_publishes_all (options : Options) (w : W) :
  settled (setupCommand client faker snakeCase kebabCase JSON_stringify
                SPACE_ID options w) = Fulfilled tt ->
  let rqs := requests (trace (setupCommand client faker snakeCase kebabCase JSON_stringify
                SPACE_ID options w)) in
  length (List.filter (creates_entry "address") rqs) = 10 /\
  length (List.filter (creates_entry "article") rqs) = 10 /\
  length (List.filter creates_asset rqs) = 10 /\
  length (List.filter updates_asset rqs) = 10 /\
  Forall (carries_tag (tag options)) rqs /\
  published_sizes rqs = [30] /\
  exists its processed bulk,
    length its = 10 /\
    length processed = 10 /\
    calls (trace (setupCommand client faker snakeCase kebabCase JSON_stringify
                SPACE_ID options w)) =
      flat_map (iteration_calls (tag options)) its ++
      process_calls (map it_image its) processed ++
      [(BulkActionPublish (mkBulkParams SPACE_ID "master")
          (mkPublishPayload "Array"
             (map publish_link
                (map EntryItem (flat_map iteration_entries its) ++
                 map AssetItem processed))),
        Fulfilled (GotBulkAction bulk))].
Proof.
  intros H rqs. subst rqs.
  destruct (setupCommand_fulfilled options w H)
    as (its & processed & bulk & Hlen & Hlp & _ & _ & Hc).
  unfold requests. rewrite Hc, !map_app. cbn [map fst].
  rewrite <- Hlen at 1 2 3 4.
  repeat split.
  - apply count_once_per_iteration; try reflexivity.
    intros [] Hp; first [discriminate Hp|reflexivity].
  - apply count_once_per_iteration; try reflexivity.
    intros [] Hp; first [discriminate Hp|reflexivity].
  - apply count_once_per_iteration; try reflexivity.
    intros [] Hp; first [discriminate Hp|reflexivity].
  - apply count_once_per_iteration; try reflexivity.
    intros [] Hp; first [discriminate Hp|reflexivity].
  - rewrite !Forall_app. repeat split.
    + rewrite requests_flat_map_iterations. clear.
      induction its as [|it its IH]; [constructor|].
      cbn [flat_map]. rewrite Forall_app. split; [|exact IH].
      repeat constructor.
    + pose proof (requests_process_calls (map it_image its) processed) as Hall.
      induction (map fst (process_calls (map it_image its) processed))
        as [|rq l IH]; [constructor|].
      cbn [forallb] in Hall. apply andb_prop in Hall. destruct Hall as (Hrq & Hl).
      constructor; [now destruct rq|now apply IH].
    + repeat constructor.
  - rewrite !published_sizes_app.
    assert (Hi : published_sizes (map fst (flat_map (iteration_calls (tag options)) its))
                 = []).
    { rewrite requests_flat_map_iterations. clear.
      induction its as [|it its IH]; [reflexivity|].
      cbn [flat_map]. rewrite published_sizes_app, IH. reflexivity. }
    assert (Hp : published_sizes
                   (map fst (process_calls (map it_image its) processed)) = []).
    { pose proof (requests_process_calls (map it_image its) processed) as Hall.
      induction (map fst (process_calls (map it_image its) processed))
        as [|rq l IH]; [reflexivity|].
      cbn [forallb] in Hall. apply andb_prop in Hall. destruct Hall as (Hrq & Hl).
      destruct rq; try discriminate. cbn [published_sizes]. now apply IH. }
    rewrite Hi, Hp. cbn [app published_sizes pub_items].
    rewrite length_app, !length_map, Hlp.
    assert (Hl : length (flat_map iteration_entries its) = 2 * length its).
    { clear. induction its as [|it its IH]; [reflexivity|].
      cbn [flat_map iteration_entries app length]. rewrite IH. lia. }
    rewrite Hl, Hlen. reflexivity.
  - exists its, processed, bulk. repeat split; try assumption.
    now rewrite (map_app publish_link).
Qed.

(** C7: in a fulfilled setup run, the article of each of the ten iterations
    is created with an [address] field that links, as an entry, the id of
    the address entry returned in the same iteration, and a [mainImage] field
    that links, as an asset, the id of the image asset returned in the same
    iteration. *)
Theorem article_links_closed_within_run (options : Options) (w : W) :
  settled (setupCommand client faker snakeCase kebabCase JSON_stringify
                SPACE_ID options w) = Fulfilled tt ->
  exists its rest,
    length its = 10 /\
    calls (trace (setupCommand client faker snakeCase kebabCase JSON_stringify
                SPACE_ID options w)) =
      flat_map (iteration_calls (tag options)) its ++ rest /\
    Forall (fun it =>
      it_articleProps it !! "address" =
        Some {[ locale options :=
                  FLink (mkLink "Entry" (id (entry_sys (it_address it)))) ]} /\
      it_articleProps it !! "mainImage" =
        Some {[ locale options :=
                  FLink (mkLink "Asset" (id (asset_sys (it_image it)))) ]}) its.
Proof.
  intros H.
  destruct (setupCommand_fulfilled options w H)
    as (its & processed & bulk & Hlen & _ & _ & Hlinks & Hc).
  exists its. eexists. split; [exact Hlen|]. split; [exact Hc|]. exact Hlinks.
Qed.

(** C2: when some processing call of a setup run is rejected, the run sends
    no bulk publish request and is rejected. *)
Theorem failed_processing_blocks_publish (options : Options) (w : W) :
  processing_failed (calls (trace (setupCommand client faker snakeCase kebabCase JSON_stringify
                SPACE_ID options w))) = true ->
  List.filter is_publish (requests (trace (setupCommand client faker snakeCase kebabCase JSON_stringify
                SPACE_ID options w))) = [] /\
  is_fulfilled (settled (setupCommand client faker snakeCase kebabCase JSON_stringify
                SPACE_ID options w)) = false.
Proof.
  destruct (setupCommand_calls client faker snakeCase kebabCase JSON_stringify
              SPACE_ID options w) as (Hc & Hs).
  cbv zeta in Hc, Hs. unfold requests. rewrite Hc, Hs. clear Hc Hs.
  pose proof (setupCommand_loop_creates client faker snakeCase kebabCase
                JSON_stringify 10 (locale options) (tag options)
                (mkItems [] []) w) as Hloop.
  unfold requests in Hloop.
  set (o1 := setupCommand_loop _ _ _ _ _ _ _ _ _ w) in *.
  assert (Hnp : forall l, forallb creation_request (map fst l) = true ->
                  processing_failed l = false /\
                  List.filter is_publish (map fst l) = []).
  { clear. induction l as [|[rq rs] l IH]; [split; reflexivity|].
    cbn [map fst forallb]. intros H. apply andb_prop in H.
    destruct H as (Hrq & Hl). destruct (IH Hl) as (IH1 & IH2).
    unfold processing_failed in *. cbn [existsb List.filter fst].
    rewrite IH1, IH2. now destruct rq. }
  destruct (Hnp _ Hloop) as (Hf1 & Hp1).
  unfold processing_failed in *. rewrite existsb_app, Hf1, map_app,
    List.filter_app, Hp1. cbn [orb app].
  destruct (settled o1) as [all|e]; [|discriminate].
  destruct (processAssets_phase client (assets all) (world o1)) as (Hr & Hfull).
  set (o2 := processAssets client (assets all) (world o1)) in *.
  rewrite existsb_app, map_app, List.filter_app, Hr.
  assert (Hp2 : List.filter is_publish (map AssetProcessForAllLocales (assets all))
                = []).
  { clear. induction (assets all); [reflexivity|assumption]. }
  rewrite Hp2. cbn [app].
  destruct (settled o2) as [processed|e] eqn:E2; [|split; reflexivity].
  cbn [is_fulfilled] in Hfull. symmetry in Hfull.
  rewrite forallb_forall in Hfull.
  intros H. apply orb_prop in H. destruct H as [H|H].
  - apply existsb_exists in H. destruct H as (c & Hin & Hc).
    apply andb_prop in Hc. destruct Hc as (_ & Hc).
    rewrite (Hfull c Hin) in Hc. discriminate.
  - exfalso.
    match type of H with
    | context [publishItems _ _ ?items ?w'] =>
        destruct items as [|item items'];
        [|destruct (publishItems_cons client SPACE_ID item items' w') as (Hpc & _);
          rewrite Hpc in H]
    end; discriminate.
Qed.

End SetupContracts.

(** *** Runs against the demo vendor *)

(** The demo run is fulfilled and its one bulk publish links thirty items,
    not twenty. *)
Lemma setup_publishes_thirty_not_twenty :
  settled (Demo.setup Demo.no_failure Demo.demo_options) = Fulfilled tt /\
  published_sizes (requests (trace (Demo.setup Demo.no_failure Demo.demo_options)))
    <> [20].
Proof.
  split; [vm_compute; reflexivity|].
  assert (H : published_sizes
                (requests (trace (Demo.setup Demo.no_failure Demo.demo_options)))
              = [30]) by (vm_compute; reflexivity).
  rewrite H. discriminate.
Qed.

Lemma setup_creates_tags_and_publishes_all_witness :
  settled (Demo.setup Demo.no_failure Demo.demo_options) = Fulfilled tt /\
  length (List.filter (creates_entry "address")
            (requests (trace (Demo.setup Demo.no_failure Demo.demo_options)))) = 10 /\
  published_sizes (requests (trace (Demo.setup Demo.no_failure Demo.demo_options)))
    = [30].
Proof.
  assert (H : settled (Demo.setup Demo.no_failure Demo.demo_options) = Fulfilled tt)
    by (vm_compute; reflexivity).
  split; [exact H|].
  destruct (setup_creates_tags_and_publishes_all
              (Demo.client [] [] Demo.no_failure) Demo.faker
              (fun s => s) (fun s => s) (fun _ => "{}") "space"
              Demo.demo_options 0 H)
    as (Haddress & _ & _ & _ & _ & Hsizes & _).
  split; [exact Haddress|exact Hsizes].
Defined.

Lemma article_links_closed_within_run_witness :
  settled (Demo.setup Demo.no_failure Demo.demo_options) = Fulfilled tt /\
  exists its rest,
    length its = 10 /\
    calls (trace (Demo.setup Demo.no_failure Demo.demo_options)) =
      flat_map (iteration_calls "demo") its ++ rest /\
    Forall (fun it =>
      it_articleProps it !! "address" =
        Some {[ "en-US" := FLink (mkLink "Entry" (id (entry_sys (it_address it)))) ]} /\
      it_articleProps it !! "mainImage" =
        Some {[ "en-US" := FLink (mkLink "Asset" (id (asset_sys (it_image it)))) ]})
      its.
Proof.
  assert (H : settled (Demo.setup Demo.no_failure Demo.demo_options) = Fulfilled tt)
    by (vm_compute; reflexivity).
  split; [exact H|].
  exact (article_links_closed_within_run
           (Demo.client [] [] Demo.no_failure) Demo.faker
           (fun s => s) (fun s => s) (fun _ => "{}") "space"
           Demo.demo_options 0 H).
Defined.

(** The asset [a3], the image of the second iteration, fails to process. *)
Lemma failed_processing_blocks_publish_witness :
  processing_failed
    (calls (trace (Demo.setup (String.eqb "a3") Demo.demo_options))) = true /\
  List.filter is_publish
    (requests (trace (Demo.setup (String.eqb "a3") Demo.demo_options))) = [] /\
  is_fulfilled (settled (Demo.setup (String.eqb "a3") Demo.demo_options)) = false.
Proof.
  assert (H : processing_failed
                (calls (trace (Demo.setup (String.eqb "a3") Demo.demo_options)))
              = true) by (vm_compute; reflexivity).
  split; [exact H|].
  exact (failed_processing_blocks_publish
           (Demo.client [] [] (String.eqb "a3")) Demo.faker
           (fun s => s) (fun s => s) (fun _ => "{}") "space"
           Demo.demo_options 0 H).
Defined.

(** ** The command line *)

Lemma parseOptions_boolean_keeps_strings (decls : list Cli.OptionDecl)
    (args : list string) :
  Forall (fun o => Cli.arity o = Cli.Boolean) decls ->
  forall values operands values' operands',
    Cli.parseOptions decls args values operands = Some (values', operands') ->
    forall k s, values' !! k = Some (Cli.Str s) -> values !! k = Some (Cli.Str s).
Proof.
  intros Hbool. rewrite Forall_forall in Hbool.
  induction args as [|arg rest IH]; intros values operands values' operands' H k s Hk.
  - injection H as <- <-. exact Hk.
  - cbn [Cli.parseOptions] in H.
    destruct (String.eqb arg "--"); [injection H as <- <-; exact Hk|].
    destruct (Cli.maybeOption arg); [|exact (IH _ _ _ _ H k s Hk)].
    destruct (Cli.findOption decls arg) as [o|] eqn:Hfind; [|discriminate].
    apply List.find_some in Hfind. destruct Hfind as (Hin & _).
    apply list_elem_of_In, Hbool in Hin. rewrite Hin in H.
    pose proof (IH _ _ _ _ H k s Hk) as Hins.
    rewrite lookup_insert in Hins.
    destruct (decide (Cli.option_name o = k)); [discriminate|exact Hins].
Qed.

(** Whatever the command line, a string the workflow receives under an
    option is one of the two defaults: no supplied string ever arrives. *)
Lemma cli_strings_are_defaults (allowExcessArguments : bool) (argv : list string)
    (action : Cli.Action) (values : gmap string Cli.OptionValue) (k s : string) :
  Cli.parse allowExcessArguments Cli.program argv = Some (action, values) ->
  values !! k = Some (Cli.Str s) ->
  s = Cli.DEFAULT_TAG \/ s = Cli.DEFAULT_LOCALE.
Proof.
  unfold Cli.parse. destruct argv as [|name rest]; [discriminate|].
  destruct (List.find _ (Cli.commands Cli.program)) as [c|] eqn:Hfind;
    [|discriminate].
  apply List.find_some in Hfind. destruct Hfind as (Hin & _).
  destruct (Cli.parseOptions _ rest _ []) as [[values' operands]|] eqn:Hparse;
    [|discriminate].
  intros H Hk.
  assert (Hv : values' = values).
  { destruct operands; [|destruct allowExcessArguments]; congruence. }
  subst values'. clear H.
  cbn [Cli.commands Cli.program In] in Hin.
  destruct Hin as [<-|[<-|[]]];
    (apply (fun Hbool => parseOptions_boolean_keeps_strings _ _ Hbool
                           _ _ _ _ Hparse) in Hk;
     [|repeat (apply List.Forall_cons; [reflexivity|]); apply List.Forall_nil]);
    cbn [Cli.defaults Cli.command_options fold_right Cli.defaultValue] in Hk;
    repeat (apply lookup_insert_Some in Hk; destruct Hk as [(_ & Hk)|(_ & Hk)];
            [injection Hk as <-; auto|]);
    discriminate.
Qed.

(** C5: with the options as the program declares them ([-t, --tag] and
    [-l, --locale], flags strings that name no argument), a string supplied
    after [--tag] does not reach the workflow: the option is read as a
    boolean flag and set to [true], and [demo] is an operand in excess, let
    through or refused.  Only the defaults arrive as strings. *)
Theorem cli_supplied_tag_is_not_received :
  Cli.parse true Cli.program ["setup"; "--tag"; "demo"] =
    Some (Cli.SetupCommand,
          {[ "locale" := Cli.Str "en-US"; "tag" := Cli.Flag true ]}) /\
  Cli.parse false Cli.program ["setup"; "--tag"; "demo"] = None /\
  Cli.parse true Cli.program ["setup"; "--locale"; "de-DE"] =
    Some (Cli.SetupCommand,
          {[ "locale" := Cli.Flag true; "tag" := Cli.Str "generated" ]}) /\
  Cli.parse true Cli.program ["teardown"; "-t"; "demo"] =
    Some (Cli.TeardownCommand, {[ "tag" := Cli.Flag true ]}) /\
  Cli.parse true Cli.program ["setup"] =
    Some (Cli.SetupCommand,
          {[ "locale" := Cli.Str "en-US"; "tag" := Cli.Str "generated" ]}) /\
  Cli.parse true Cli.program ["teardown"] =
    Some (Cli.TeardownCommand, {[ "tag" := Cli.Str "generated" ]}).
Proof. repeat split; vm_compute; reflexivity. Qed.

(** * Further properties of the code *)

(** ** Failures are surfaced unchanged *)

Section Surfacing.

Context {W : Type}.
Variable client : PlainClient W.
Variable faker : Faker W.
Variables snakeCase kebabCase : string -> string.
Variable JSON_stringify : Fields -> string.
Variable SPACE_ID : string.

Lemma surfaces_resolve {A} (a : A) (w : W) : surfaces_failures (resolve a w).
Proof. reflexivity. Qed.

Lemma surfaces_info (message : string) (w : W) :
  surfaces_failures (info message w).
Proof. reflexivity. Qed.

Lemma surfaces_forEach_info {A} (xs : list A) (f : A -> string) (w : W) :
  surfaces_failures (forEach_info xs f w).
Proof.
  unfold surfaces_failures. cbn [forEach_info settled trace].
  now rewrite calls_infos.
Qed.

Lemma surfaces_draw (gen : W -> string * W) (w : W) :
  surfaces_failures (draw gen w).
Proof. reflexivity. Qed.

Lemma surfaces_call {A} (rq : Request) (inj : A -> Response)
    (method : W -> Settled A * W) (w : W) :
  surfaces_failures (call rq inj method w).
Proof.
  unfold surfaces_failures. cbn [call settled trace calls].
  destruct (fst (method w)) as [a|e]; [reflexivity|].
  exists rq. now left.
Qed.

Lemma surfaces_await {A B} (m : Async W A) (k : A -> Async W B) (w : W) :
  surfaces_failures (m w) ->
  (forall a w', surfaces_failures (k a w')) ->
  surfaces_failures (await m k w).
Proof.
  unfold surfaces_failures. intros Hm Hk.
  rewrite settled_await, trace_await, calls_app.
  destruct (settled (m w)) as [a|e].
  - specialize (Hk a (world (m w))).
    destruct (settled (k a (world (m w)))) as [b|e].
    + now rewrite forallb_app, Hm, Hk.
    + destruct Hk as (rq & Hin). exists rq. apply in_or_app. now right.
  - destruct Hm as (rq & Hin). exists rq. apply in_or_app. now left.
Qed.

Lemma surfaces_promise_all {A} (ms : list (Async W A)) :
  Forall (fun m => forall w, surfaces_failures (m w)) ms ->
  forall w, surfaces_failures (promise_all ms w).
Proof.
  unfold surfaces_failures.
  induction 1 as [|m ms Hm _ IH]; intros w; [reflexivity|].
  cbn [promise_all settled trace]. rewrite calls_app.
  specialize (Hm w). specialize (IH (world (m w))).
  destruct (settled (m w)) as [a|e].
  - destruct (settled (promise_all ms (world (m w)))) as [l|e].
    + now rewrite forallb_app, Hm, IH.
    + destruct IH as (rq & Hin). exists rq. apply in_or_app. now right.
  - destruct Hm as (rq & Hin). exists rq. apply in_or_app. now left.
Qed.

(** Walking down a computation built from the pieces above. *)
Ltac surfaces :=
  repeat first
    [ apply surfaces_resolve
    | apply surfaces_info
    | apply surfaces_forEach_info
    | apply surfaces_draw
    | apply surfaces_call
    | apply surfaces_await; [|intros ? ?]
    | match goal with
      | |- surfaces_failures ((if ?b then _ else _) _) => destruct b
      end ].

Lemma surfaces_map_promise_all {A X} (f : X -> Async W A) (xs : list X) (w : W) :
  (forall x w', surfaces_failures (f x w')) ->
  surfaces_failures (promise_all (map f xs) w).
Proof.
  intros Hf. apply surfaces_promise_all.
  apply List.Forall_forall. intros m Hin. apply in_map_iff in Hin.
  destruct Hin as (x & <- & _). apply Hf.
Qed.

Lemma tagAsset_surfaces (asset : AssetProps) (tag : string) (w : W) :
  surfaces_failures (tagAsset client asset tag w).
Proof. unfold tagAsset. surfaces. Qed.

Lemma publishItems_surfaces (items : ItemArray) (w : W) :
  surfaces_failures (publishItems client SPACE_ID items w).
Proof. unfold publishItems. surfaces. Qed.

Lemma unpublishItems_surfaces (items : list string) (type : string) (w : W) :
  surfaces_failures (unpublishItems client SPACE_ID items type w).
Proof. unfold unpublishItems. surfaces. Qed.

Lemma createEntry_surfaces (contentTypeId : string) (value : Fields) (tag : string)
    (w : W) :
  surfaces_failures (createEntry client JSON_stringify contentTypeId value tag w).
Proof. unfold createEntry. surfaces. Qed.

Lemma createAssetFromPicsum_surfaces (meta : AssetMeta) (width height : Z)
    (locale tag : string) (w : W) :
  surfaces_failures (createAssetFromPicsum client meta width height locale tag w).
Proof. unfold createAssetFromPicsum. surfaces. Qed.

Lemma processAssets_surfaces (assets : list AssetProps) (w : W) :
  surfaces_failures (processAssets client assets w).
Proof.
  unfold processAssets. surfaces. apply surfaces_map_promise_all.
  intros x w1. surfaces.
Qed.

Lemma deleteEntries_surfaces (ids : list string) (w : W) :
  surfaces_failures (deleteEntries client ids w).
Proof.
  unfold deleteEntries. surfaces. apply surfaces_map_promise_all.
  intros x w1. surfaces.
Qed.

Lemma deleteAssets_surfaces (ids : list string) (w : W) :
  surfaces_failures (deleteAssets client ids w).
Proof.
  unfold deleteAssets. surfaces. apply surfaces_map_promise_all.
  intros x w1. surfaces.
Qed.

Lemma createTestEntry_surfaces (locale tag : string) (w : W) :
  surfaces_failures
    (createTestEntry client faker snakeCase kebabCase JSON_stringify locale tag w).
Proof.
  unfold createTestEntry.
  repeat first
    [ apply createAssetFromPicsum_surfaces
    | apply createEntry_surfaces
    | apply surfaces_resolve | apply surfaces_info | apply surfaces_draw
    | apply surfaces_await; [|intros ? ?] ].
Qed.

Lemma setupCommand_loop_surfaces (n : nat) (locale tag : string) (acc : Items)
    (w : W) :
  surfaces_failures
    (setupCommand_loop client faker snakeCase kebabCase JSON_stringify
       n locale tag acc w).
Proof.
  revert acc w. induction n as [|n IH]; intros acc w; [reflexivity|].
  cbn [setupCommand_loop]. apply surfaces_await.
  - apply createTestEntry_surfaces.
  - intros created w'. apply IH.
Qed.

(** X1: whatever the vendor does, a setup run that is fulfilled made only
    fulfilled calls, and a setup run that is rejected is rejected with the
    reason of one of its rejected calls: no failure is swallowed and none is
    made up. *)
Theorem setupCommand_surfaces_failures (options : Options) (w : W) :
  surfaces_failures
    (setupCommand client faker snakeCase kebabCase JSON_stringify SPACE_ID
       options w).
Proof.
  unfold setupCommand.
  repeat first
    [ apply setupCommand_loop_surfaces
    | apply processAssets_surfaces
    | apply publishItems_surfaces
    | apply surfaces_info
    | apply surfaces_await; [|intros ? ?] ].
Qed.

(** X2: the same for a teardown run. *)
Theorem teardownCommand_surfaces_failures (options : Options) (w : W) :
  surfaces_failures (teardownCommand client SPACE_ID options w).
Proof.
  unfold teardownCommand, findTaggedEntries, findTaggedAssets,
    unpublishEntries, unpublishAssets.
  repeat first
    [ apply deleteEntries_surfaces
    | apply deleteAssets_surfaces
    | apply unpublishItems_surfaces
    | apply surfaces_info | apply surfaces_resolve | apply surfaces_call
    | apply surfaces_await; [|intros ? ?] ].
Qed.

(** X3: every function of the access module surfaces the vendor's
    failures in the same way: fulfilled, all of its calls were fulfilled;
    rejected, its reason is the reason of one of its rejected calls. *)
Theorem access_module_surfaces_failures (tag contentTypeId file locale type : string)
    (ids : list string) (value : Fields) (meta : AssetMeta) (width height : Z)
    (assets : list AssetProps) (items : ItemArray) (w : W) :
  surfaces_failures (findTaggedEntries client tag w) /\
  surfaces_failures (findTaggedAssets client tag w) /\
  surfaces_failures (deleteEntries client ids w) /\
  surfaces_failures (deleteAssets client ids w) /\
  surfaces_failures (createEntry client JSON_stringify contentTypeId value tag w) /\
  surfaces_failures (createAssetFromFile client meta file locale tag w) /\
  surfaces_failures (createAssetFromPicsum client meta width height locale tag w) /\
  surfaces_failures (processAssets client assets w) /\
  surfaces_failures (publishItems client SPACE_ID items w) /\
  surfaces_failures (unpublishEntries client SPACE_ID ids w) /\
  surfaces_failures (unpublishAssets client SPACE_ID ids w) /\
  surfaces_failures (unpublishItems client SPACE_ID ids type w).
Proof.
  repeat split.
  - unfold findTaggedEntries. surfaces.
  - unfold findTaggedAssets. surfaces.
  - apply deleteEntries_surfaces.
  - apply deleteAssets_surfaces.
  - apply createEntry_surfaces.
  - unfold createAssetFromFile. surfaces.
  - apply createAssetFromPicsum_surfaces.
  - apply processAssets_surfaces.
  - apply publishItems_surfaces.
  - unfold unpublishEntries. surfaces.
  - unfold unpublishAssets. surfaces.
  - apply unpublishItems_surfaces.
Qed.

End Surfacing.

(** ** One iteration of the setup loop, however it settles *)

Section Iterations.

Context {W : Type}.
Variable client : PlainClient W.
Variable faker : Faker W.
Variables snakeCase kebabCase : string -> string.
Variable JSON_stringify : Fields -> string.
Variable SPACE_ID : string.

(** A rejected [await] was rejected in its first part, or went through it
    and was rejected in its second. *)
Lemma await_rejected {A B} (m : Async W A) (k : A -> Async W B) (w : W)
    (reason : string) :
  settled (await m k w) = Rejected reason ->
  (settled (m w) = Rejected reason /\ trace (await m k w) = trace (m w)) \/
  (exists a, settled (m w) = Fulfilled a /\
             settled (k a (world (m w))) = Rejected reason /\
             trace (await m k w) = trace (m w) ++ trace (k a (world (m w)))).
Proof.
  rewrite settled_await, trace_await.
  destruct (settled (m w)) as [a|e]; intros H.
  - right. exists a. auto.
  - left. injection H as <-. now rewrite app_nil_r.
Qed.

Lemma createAssetFromPicsum_rejected (meta : AssetMeta) (width height : Z)
    (locale tag : string) (w : W) (reason : string) :
  settled (createAssetFromPicsum client meta width height locale tag w) =
    Rejected reason ->
  exists props,
    ca_metadata props = None /\
    (calls (trace (createAssetFromPicsum client meta width height locale tag w)) =
       [(AssetCreate props, Rejected reason)] \/
     exists created,
       calls (trace (createAssetFromPicsum client meta width height locale tag w)) =
         [(AssetCreate props, Fulfilled (GotAsset created));
          (AssetUpdate (id (asset_sys created)) (retagged created tag),
           Rejected reason)]).
Proof.
  intros H.
  destruct (createAssetFromPicsum_run client meta width height locale tag w)
    as (props & Hnone & Hrun).
  cbv zeta in Hrun. exists props. split; [exact Hnone|].
  destruct (fst (asset_create client props w)) as [created|e].
  - destruct Hrun as (Hc & Hs & _). right. exists created.
    rewrite Hc. rewrite Hs in H. now rewrite H.
  - destruct Hrun as (Hc & Hs). left. rewrite Hc. congruence.
Qed.

(** Inverting a rejected [await] in hypothesis [H]: the first goal is the
    rejection in the first part, the second goes on in the second part. *)
Ltac await_rej H a Ha :=
  let T := fresh "T" in
  apply await_rejected in H;
  destruct H as [(H & T)|(a & Ha & H & T)];
  rewrite T; clear T;
  cbn [draw info resolve trace world settled fst snd] in *;
  [try discriminate H|].

Lemma createTestEntry_rejected (locale tag : string) (w : W) (reason : string) :
  settled (createTestEntry client faker snakeCase kebabCase JSON_stringify
             locale tag w) = Rejected reason ->
  exists it k,
    k < 4 /\
    links_closed locale it /\
    ca_metadata (it_assetProps it) = None /\
    calls (trace (createTestEntry client faker snakeCase kebabCase
                    JSON_stringify locale tag w)) =
      rejected_iteration_calls tag it k reason.
Proof.
  pose (no_asset := mkAsset (mkSys "" 0 "") ∅ None).
  pose (no_entry := mkEntry (mkSys "" 0 "") ∅ None).
  pose (links := fun (address : EntryProps) (image : AssetProps) =>
          ({[ "address" := {[ locale := FLink (mkLink "Entry" (id (entry_sys address))) ]};
              "mainImage" := {[ locale := FLink (mkLink "Asset" (id (asset_sys image))) ]} ]}
           : Fields)).
  unfold createTestEntry. intros H.
  await_rej H name Hname.
  await_rej H image Himage.
  { apply createAssetFromPicsum_rejected in H.
    destruct H as (props & Hnone & [Hc|(created & Hc)]);
      rewrite ?calls_app; cbn [calls app]; rewrite Hc.
    - exists (mkIteration props no_asset no_asset ∅ no_entry
                (links no_entry no_asset) no_entry), 0.
      split; [lia|]. split; [split; reflexivity|]. split; [exact Hnone|reflexivity].
    - exists (mkIteration props created no_asset ∅ no_entry
                (links no_entry no_asset) no_entry), 1.
      split; [lia|]. split; [split; reflexivity|]. split; [exact Hnone|reflexivity]. }
  apply createAssetFromPicsum_fulfilled in Himage.
  destruct Himage as (props & created & Hnone & Hcalls).
  await_rej H u Hu. clear u Hu.
  await_rej H houseNumberAndStreet Hh.
  await_rej H town Ht.
  await_rej H county Hc.
  await_rej H postcode Hp.
  await_rej H address Haddress.
  { lazymatch type of H with
    | settled (createEntry _ _ _ ?fields _ ?w1) = _ =>
        destruct (createEntry_run client JSON_stringify "address" fields tag w1)
          as (Ca & Sa & _);
        exists (mkIteration props created image fields no_entry
                  (links no_entry image) no_entry), 2
    end.
    rewrite Sa in H. rewrite H in Ca.
    split; [lia|]. split; [split; reflexivity|]. split; [exact Hnone|].
    rewrite !calls_app, Hcalls, Ca. reflexivity. }
  lazymatch type of Haddress with
  | settled (createEntry _ _ _ ?fields _ ?w1) = _ =>
      destruct (createEntry_run client JSON_stringify "address" fields tag w1)
        as (Ca & Sa & _);
      pose (addressProps := fields)
  end.
  rewrite Sa in Haddress. rewrite Haddress in Ca.
  await_rej H u Hu. clear u Hu.
  await_rej H article Harticle.
  { lazymatch type of H with
    | settled (createEntry _ _ _ ?fields _ ?w1) = _ =>
        destruct (createEntry_run client JSON_stringify "article" fields tag w1)
          as (Cb & Sb & _);
        exists (mkIteration props created image addressProps address
                  fields no_entry), 3
    end.
    rewrite Sb in H. rewrite H in Cb.
    split; [lia|]. split; [split; reflexivity|]. split; [exact Hnone|].
    rewrite !calls_app, Hcalls, Ca, Cb. reflexivity. }
  await_rej H u Hu. discriminate H.
Qed.

(** X4: whatever the vendor does, one iteration sends its requests in the
    order create image, tag image, create address, create article, each one
    only after the one before was fulfilled: either all four calls are
    fulfilled and the iteration returns the tagged image and the two entries,
    or the iteration is rejected with the reason of its last call, the first
    to be rejected.  The article request links the address and the image
    returned earlier in the iteration. *)
Theorem createTestEntry_creates_in_order (locale tag : string) (w : W) :
  exists it,
    links_closed locale it /\
    ca_metadata (it_assetProps it) = None /\
    ((settled (createTestEntry client faker snakeCase kebabCase JSON_stringify
                 locale tag w) =
        Fulfilled (mkItems [it_image it] (iteration_entries it)) /\
      calls (trace (createTestEntry client faker snakeCase kebabCase
                      JSON_stringify locale tag w)) = iteration_calls tag it) \/
     (exists k reason,
        k < 4 /\
        settled (createTestEntry client faker snakeCase kebabCase JSON_stringify
                   locale tag w) = Rejected reason /\
        calls (trace (createTestEntry client faker snakeCase kebabCase
                        JSON_stringify locale tag w)) =
          rejected_iteration_calls tag it k reason)).
Proof.
  destruct (settled (createTestEntry client faker snakeCase kebabCase
                       JSON_stringify locale tag w)) as [items|reason] eqn:E.
  - destruct (createTestEntry_fulfilled client faker snakeCase kebabCase
                JSON_stringify locale tag w items E)
      as (it & -> & Hc & Hnone & Hlinks).
    exists it. repeat (split; [assumption|]). left. split; [reflexivity|exact Hc].
  - destruct (createTestEntry_rejected locale tag w reason E)
      as (it & k & Hk & Hlinks & Hnone & Hc).
    exists it. repeat (split; [assumption|]). right. exists k, reason.
    repeat split; assumption.
Qed.

Lemma setupCommand_loop_rejected (n : nat) (locale tag : string) (acc : Items)
    (w : W) (reason : string) :
  settled (setupCommand_loop client faker snakeCase kebabCase JSON_stringify
             n locale tag acc w) = Rejected reason ->
  exists its it k,
    length its < n /\
    k < 4 /\
    Forall (links_closed locale) its /\
    links_closed locale it /\
    calls (trace (setupCommand_loop client faker snakeCase kebabCase JSON_stringify
                    n locale tag acc w)) =
      flat_map (iteration_calls tag) its ++
      rejected_iteration_calls tag it k reason.
Proof.
  revert acc w. induction n as [|n IH]; intros acc w H; [discriminate H|].
  cbn [setupCommand_loop] in *.
  apply await_rejected in H. destruct H as [(H & T)|(created & Hc & H & T)];
    rewrite T; clear T.
  - apply createTestEntry_rejected in H.
    destruct H as (it & k & Hk & Hlinks & _ & Hcalls).
    exists [], it, k. cbn [length flat_map app].
    split; [lia|]. split; [assumption|]. split; [constructor|].
    split; assumption.
  - apply createTestEntry_fulfilled in Hc.
    destruct Hc as (it0 & _ & Hcalls & _ & Hlinks0).
    apply IH in H. destruct H as (its & it & k & Hlen & Hk & Hls & Hl & Hrest).
    exists (it0 :: its), it, k. rewrite calls_app, Hcalls, Hrest.
    cbn [length flat_map]. rewrite <- app_assoc.
    split; [lia|]. split; [assumption|]. split; [now constructor|].
    split; [assumption|reflexivity].
Qed.

End Iterations.

(** ** The setup workflow, however it settles *)

Section SetupRuns.

Context {W : Type}.
Variable client : PlainClient W.
Variable faker : Faker W.
Variables snakeCase kebabCase : string -> string.
Variable JSON_stringify : Fields -> string.
Variable SPACE_ID : string.

Lemma creation_failed_app (l1 l2 : list (Request * Settled Response)) :
  creation_failed (l1 ++ l2) = (creation_failed l1 || creation_failed l2)%bool.
Proof. apply existsb_app. Qed.

Lemma creation_failed_iterations (tag : string) (its : list Iteration) :
  creation_failed (flat_map (iteration_calls tag) its) = false.
Proof.
  induction its as [|it its IH]; [reflexivity|].
  cbn [flat_map]. now rewrite creation_failed_app, IH.
Qed.

Lemma creation_failed_rejected_iteration (tag : string) (it : Iteration) (k : nat)
    (reason : string) :
  k < 4 -> creation_failed (rejected_iteration_calls tag it k reason) = true.
Proof.
  intros Hk. do 4 (destruct k as [|k]; [reflexivity|]). lia.
Qed.

Lemma creation_request_rejected_iteration (tag : string) (it : Iteration) (k : nat)
    (reason : string) :
  forallb creation_request (map fst (rejected_iteration_calls tag it k reason)) = true.
Proof. do 4 (destruct k as [|k]; [reflexivity|]). destruct k; reflexivity. Qed.

Lemma processing_requested_app (l1 l2 : list Request) :
  processing_requested (l1 ++ l2) =
  processing_requested l1 ++ processing_requested l2.
Proof.
  induction l1 as [|rq l1 IH]; [reflexivity|].
  destruct rq; cbn [app processing_requested]; rewrite ?IH; reflexivity.
Qed.

Lemma tagging_answers_app (l1 l2 : list (Request * Settled Response)) :
  tagging_answers (l1 ++ l2) = tagging_answers l1 ++ tagging_answers l2.
Proof.
  induction l1 as [|[rq rs] l1 IH]; [reflexivity|].
  destruct rq; cbn [app tagging_answers]; rewrite ?IH; try reflexivity.
  destruct rs as [[]|]; cbn [app]; rewrite ?IH; reflexivity.
Qed.

(** Requests of the creation kind are no processing, no publishing, and
    are requests of a setup run. *)
Lemma creation_requests_only (l : list (Request * Settled Response)) :
  forallb creation_request (map fst l) = true ->
  processing_requested (map fst l) = [] /\
  List.filter is_process (map fst l) = [] /\
  List.filter is_publish (map fst l) = [] /\
  forallb setup_request (map fst l) = true.
Proof.
  induction l as [|[rq rs] l IH]; [repeat split|].
  cbn [map fst forallb]. intros H. apply andb_prop in H. destruct H as (Hrq & Hl).
  destruct (IH Hl) as (H1 & H2 & H3 & H4).
  destruct rq; try discriminate Hrq;
    cbn [processing_requested List.filter is_process is_publish forallb];
    rewrite H4; repeat split; assumption.
Qed.

(** Calls whose requests are all processing requests. *)
Lemma processing_calls_only (assets : list AssetProps)
    (l : list (Request * Settled Response)) :
  map fst l = map AssetProcessForAllLocales assets ->
  creation_failed l = false /\
  tagging_answers l = [] /\
  processing_requested (map fst l) = assets /\
  forallb setup_request (map fst l) = true /\
  length l = length assets.
Proof.
  revert l. induction assets as [|a assets IH]; intros [|[rq rs] l] H;
    try discriminate H; [repeat split|].
  cbn [map fst] in H. injection H as -> H.
  destruct (IH l H) as (H1 & H2 & H3 & H4 & H5).
  unfold creation_failed in *.
  cbn [existsb tagging_answers map fst processing_requested forallb length
       creation_request is_process andb orb].
  rewrite H1, H2, H3, H4, H5. repeat split.
Qed.

(** The calls of [publishItems]: none, or one bulk publish. *)
Lemma publishing_calls_only (items : ItemArray) (w : W) :
  let cs := calls (trace (publishItems client SPACE_ID items w)) in
  creation_failed cs = false /\
  tagging_answers cs = [] /\
  processing_requested (map fst cs) = [] /\
  forallb setup_request (map fst cs) = true /\
  length cs <= 1.
Proof.
  destruct items as [|item items].
  - cbn. repeat split. lia.
  - destruct (publishItems_cons client SPACE_ID item items w) as (Hc & _).
    cbv zeta. rewrite Hc. repeat split. cbn [length]. lia.
Qed.

Lemma tagging_answers_iterations (tag : string) (its : list Iteration) :
  tagging_answers (flat_map (iteration_calls tag) its) = map it_image its.
Proof.
  induction its as [|it its IH]; [reflexivity|].
  cbn [flat_map map]. rewrite tagging_answers_app, IH. reflexivity.
Qed.

Lemma length_iterations (tag : string) (its : list Iteration) :
  length (flat_map (iteration_calls tag) its) = 4 * length its.
Proof.
  induction its as [|it its IH]; [reflexivity|].
  cbn [flat_map]. rewrite length_app, IH. cbn [length iteration_calls]. lia.
Qed.

Lemma length_rejected_iteration (tag : string) (it : Iteration) (k : nat)
    (reason : string) :
  length (rejected_iteration_calls tag it k reason) <= 4.
Proof. do 4 (destruct k as [|k]; [cbn; lia|]). destruct k; cbn; lia. Qed.

Lemma setupCommand_settled_rejected_loop (options : Options) (w : W)
    (reason : string) :
  settled (setupCommand_loop client faker snakeCase kebabCase JSON_stringify
             10 (locale options) (tag options) (mkItems [] []) w)
    = Rejected reason ->
  settled (setupCommand client faker snakeCase kebabCase JSON_stringify
             SPACE_ID options w) = Rejected reason.
Proof.
  intros H. unfold setupCommand. rewrite settled_await.
  cbn [info settled world]. rewrite settled_await, H. reflexivity.
Qed.

(** A setup run, phase by phase: the creation loop was rejected, and its
    calls are all the calls of the run; or it went through ten iterations,
    and the calls of the processing and of the publishing follow. *)
Lemma setupCommand_run (options : Options) (w : W) :
  let run := setupCommand client faker snakeCase kebabCase JSON_stringify
               SPACE_ID options w in
  (exists its it k reason,
     length its < 10 /\ k < 4 /\
     calls (trace run) =
       flat_map (iteration_calls (tag options)) its ++
       rejected_iteration_calls (tag options) it k reason /\
     settled run = Rejected reason) \/
  (exists its processing w' items,
     length its = 10 /\
     map fst processing = map AssetProcessForAllLocales (map it_image its) /\
     calls (trace run) =
       flat_map (iteration_calls (tag options)) its ++ processing ++
       (if forallb fulfilled_call processing
        then calls (trace (publishItems client SPACE_ID items w'))
        else [])).
Proof.
  intros run. subst run.
  destruct (setupCommand_calls client faker snakeCase kebabCase JSON_stringify
              SPACE_ID options w) as (Hc & _).
  cbv zeta in Hc. rewrite Hc. clear Hc.
  destruct (settled (setupCommand_loop _ _ _ _ _ _ _ _ _ w)) as [all|reason] eqn:E.
  - right. apply setupCommand_loop_fulfilled in E.
    destruct E as (its & Hlen & -> & -> & _ & _).
    cbn [assets entries app].
    destruct (processAssets_phase client (map it_image its)
                (world (setupCommand_loop client faker snakeCase kebabCase
                          JSON_stringify 10 (locale options) (tag options)
                          (mkItems [] []) w))) as (Hr & Hf).
    set (o2 := processAssets client (map it_image its) _) in *.
    destruct (settled o2) as [processed|e]; cbn [is_fulfilled] in Hf.
    + exists its, (calls (trace o2)), (world o2),
        (map EntryItem (flat_map iteration_entries its) ++ map AssetItem processed).
      split; [assumption|]. split; [assumption|]. now rewrite <- Hf.
    + exists its, (calls (trace o2)), (world o2), [].
      split; [assumption|]. split; [assumption|]. now rewrite <- Hf.
  - left. rewrite app_nil_r.
    pose proof (setupCommand_settled_rejected_loop options w reason E) as Hs.
    apply setupCommand_loop_rejected in E.
    destruct E as (its & it & k & Hlen & Hk & _ & _ & Hcalls).
    exists its, it, k, reason. repeat split; assumption.
Qed.

Lemma creation_requests_iterations (tag : string) (its : list Iteration) :
  forallb creation_request (map fst (flat_map (iteration_calls tag) its)) = true.
Proof.
  induction its as [|it its IH]; [reflexivity|].
  cbn [flat_map]. now rewrite map_app, forallb_app, IH.
Qed.

Lemma creation_requests_rejected_run (tag : string) (its : list Iteration)
    (it : Iteration) (k : nat) (reason : string) :
  forallb creation_request
    (map fst (flat_map (iteration_calls tag) its ++
              rejected_iteration_calls tag it k reason)) = true.
Proof.
  rewrite map_app, forallb_app, creation_requests_iterations.
  apply creation_request_rejected_iteration.
Qed.

Lemma length_process_calls (assets processed : list AssetProps) :
  length assets = length processed ->
  length (process_calls assets processed) = length assets.
Proof.
  revert processed. induction assets as [|a assets IH]; intros [|p processed] H;
    try discriminate H; [reflexivity|].
  cbn [process_calls length]. f_equal. apply IH. now injection H.
Qed.

(** What the publishing part of a run adds, whether it was reached or not. *)
Lemma publishing_part_only (b : bool) (items : ItemArray) (w : W) :
  let cs := if b then calls (trace (publishItems client SPACE_ID items w)) else [] in
  creation_failed cs = false /\
  tagging_answers cs = [] /\
  processing_requested (map fst cs) = [] /\
  forallb setup_request (map fst cs) = true /\
  length cs <= 1.
Proof.
  destruct b; [apply publishing_calls_only|].
  cbn. repeat split. lia.
Qed.

(** X5: when a creation call of a setup run is rejected, that call is the
    last call of the run: before it come only complete, fulfilled iterations
    (fewer than ten) and the fulfilled calls of the iteration it belongs to;
    no later iteration is started, nothing is processed, nothing is
    published, and the run is rejected with that call's reason. *)
Theorem setup_stops_at_first_creation_failure (options : Options) (w : W) :
  creation_failed
    (calls (trace (setupCommand client faker snakeCase kebabCase JSON_stringify
                     SPACE_ID options w))) = true ->
  exists its it k reason,
    length its < 10 /\ k < 4 /\
    calls (trace (setupCommand client faker snakeCase kebabCase JSON_stringify
                    SPACE_ID options w)) =
      flat_map (iteration_calls (tag options)) its ++
      rejected_iteration_calls (tag options) it k reason /\
    settled (setupCommand client faker snakeCase kebabCase JSON_stringify
               SPACE_ID options w) = Rejected reason /\
    List.filter is_process
      (requests (trace (setupCommand client faker snakeCase kebabCase
                          JSON_stringify SPACE_ID options w))) = [] /\
    List.filter is_publish
      (requests (trace (setupCommand client faker snakeCase kebabCase
                          JSON_stringify SPACE_ID options w))) = [].
Proof.
  intros Hfailed.
  destruct (setupCommand_run options w)
    as [(its & it & k & reason & Hlen & Hk & Hc & Hs)
       |(its & processing & w' & items & Hlen & Hr & Hc)]; cbv zeta in *.
  - exists its, it, k, reason. repeat (split; [assumption|]).
    unfold requests. rewrite Hc.
    destruct (creation_requests_only _
                (creation_requests_rejected_run (tag options) its it k reason))
      as (_ & H2 & H3 & _).
    split; assumption.
  - exfalso. rewrite Hc, !creation_failed_app, creation_failed_iterations in Hfailed.
    destruct (processing_calls_only _ _ Hr) as (Hp & _).
    destruct (publishing_part_only (forallb fulfilled_call processing) items w')
      as (Hq & _).
    cbv zeta in Hq. rewrite Hp, Hq in Hfailed. discriminate Hfailed.
Qed.

(** X6: whatever the vendor does, a setup run sends nothing but creations
    of assets and entries, tagging updates, processing requests and a bulk
    publish: it never looks up, unpublishes or deletes anything. *)
Theorem setup_sends_only_setup_requests (options : Options) (w : W) :
  forallb setup_request
    (requests (trace (setupCommand client faker snakeCase kebabCase
                        JSON_stringify SPACE_ID options w))) = true.
Proof.
  unfold requests.
  destruct (setupCommand_run options w)
    as [(its & it & k & reason & Hlen & Hk & Hc & Hs)
       |(its & processing & w' & items & Hlen & Hr & Hc)]; cbv zeta in *;
    rewrite Hc.
  - apply (creation_requests_only _
             (creation_requests_rejected_run (tag options) its it k reason)).
  - rewrite !map_app, !forallb_app.
    destruct (creation_requests_only _ (creation_requests_iterations (tag options) its))
      as (_ & _ & _ & H1).
    destruct (processing_calls_only _ _ Hr) as (_ & _ & _ & H2 & _).
    destruct (publishing_part_only (forallb fulfilled_call processing) items w')
      as (_ & _ & _ & H3 & _).
    cbv zeta in H3. now rewrite H1, H2, H3.
Qed.

(** X7: whatever the vendor does, a setup run sends at most 51 requests
    (forty creations and updates, ten processing requests, one bulk
    publish); a fulfilled run sends exactly 51. *)
Theorem setup_request_count (options : Options) (w : W) :
  length (requests (trace (setupCommand client faker snakeCase kebabCase
                             JSON_stringify SPACE_ID options w))) <= 51 /\
  (settled (setupCommand client faker snakeCase kebabCase JSON_stringify
              SPACE_ID options w) = Fulfilled tt ->
   length (requests (trace (setupCommand client faker snakeCase kebabCase
                              JSON_stringify SPACE_ID options w))) = 51).
Proof.
  unfold requests. rewrite length_map. split.
  - destruct (setupCommand_run options w)
      as [(its & it & k & reason & Hlen & Hk & Hc & Hs)
         |(its & processing & w' & items & Hlen & Hr & Hc)]; cbv zeta in *;
      rewrite Hc, !length_app, length_iterations.
    + pose proof (length_rejected_iteration (tag options) it k reason). lia.
    + destruct (processing_calls_only _ _ Hr) as (_ & _ & _ & _ & H2).
      rewrite length_map in H2.
      destruct (publishing_part_only (forallb fulfilled_call processing) items w')
        as (_ & _ & _ & _ & H3).
      cbv zeta in H3. lia.
  - intros H.
    destruct (setupCommand_fulfilled client faker snakeCase kebabCase
                JSON_stringify SPACE_ID options w H)
      as (its & processed & bulk & Hlen & Hlp & _ & _ & Hc).
    rewrite Hc, !length_app, length_iterations, length_process_calls;
      rewrite length_map; cbn [length]; lia.
Qed.

(** X8: processing follows tagging.  When no creation call of a setup run
    is rejected, the assets whose processing is requested are exactly the ten
    assets the vendor returned from the tagging updates, in the same order;
    when a creation call is rejected, no processing is requested. *)
Theorem setup_processes_the_tagged_assets (options : Options) (w : W) :
  processing_requested
    (requests (trace (setupCommand client faker snakeCase kebabCase
                        JSON_stringify SPACE_ID options w))) =
    (if creation_failed
          (calls (trace (setupCommand client faker snakeCase kebabCase
                           JSON_stringify SPACE_ID options w)))
     then []
     else tagging_answers
            (calls (trace (setupCommand client faker snakeCase kebabCase
                             JSON_stringify SPACE_ID options w)))) /\
  (creation_failed
     (calls (trace (setupCommand client faker snakeCase kebabCase
                      JSON_stringify SPACE_ID options w))) = false ->
   length (tagging_answers
             (calls (trace (setupCommand client faker snakeCase kebabCase
                              JSON_stringify SPACE_ID options w)))) = 10).
Proof.
  unfold requests.
  destruct (setupCommand_run options w)
    as [(its & it & k & reason & Hlen & Hk & Hc & Hs)
       |(its & processing & w' & items & Hlen & Hr & Hc)]; cbv zeta in *;
    rewrite Hc.
  - rewrite creation_failed_app, creation_failed_iterations,
      (creation_failed_rejected_iteration _ _ _ _ Hk).
    cbn [orb]. split; [|discriminate].
    apply (creation_requests_only _
             (creation_requests_rejected_run (tag options) its it k reason)).
  - destruct (creation_requests_only _ (creation_requests_iterations (tag options) its))
      as (P1 & _).
    destruct (processing_calls_only _ _ Hr) as (F2 & T2 & P2 & _).
    destruct (publishing_part_only (forallb fulfilled_call processing) items w')
      as (F3 & T3 & P3 & _).
    cbv zeta in F3, T3, P3.
    rewrite !creation_failed_app, creation_failed_iterations, F2, F3.
    rewrite !map_app, !processing_requested_app, P1, P2, P3.
    rewrite !tagging_answers_app, tagging_answers_iterations, T2, T3.
    cbn [orb app]. rewrite !app_nil_r, length_map. split; [reflexivity|].
    intros _. exact Hlen.
Qed.

End SetupRuns.

(** ** The teardown workflow, however it settles *)

Section TeardownRuns.

Context {W : Type}.
Variable client : PlainClient W.
Variable SPACE_ID : string.

(** A teardown run, lookup by lookup and then phase by phase. *)
Lemma teardownCommand_run (options : Options) (w : W) :
  let run := teardownCommand client SPACE_ID options w in
  let q := tagged_query (tag options) in
  let r1 := entry_getMany client q w in
  match fst r1 with
  | Rejected reason =>
      calls (trace run) = [(EntryGetMany q, Rejected reason)] /\
      settled run = Rejected reason
  | Fulfilled found_entries =>
      let r2 := asset_getMany client q (snd r1) in
      match fst r2 with
      | Rejected reason =>
          calls (trace run) =
            [(EntryGetMany q, Fulfilled (GotEntries found_entries));
             (AssetGetMany q, Rejected reason)] /\
          settled run = Rejected reason
      | Fulfilled found_assets =>
          let entry_ids := map (fun e => id (entry_sys e)) found_entries in
          let asset_ids := map (fun a => id (asset_sys a)) found_assets in
          exists unpublishE unpublishA deleteE deleteA,
            map fst unpublishE = unpublish_requests SPACE_ID "Entry" entry_ids /\
            map fst unpublishA = unpublish_requests SPACE_ID "Asset" asset_ids /\
            map fst deleteE = map EntryDelete entry_ids /\
            map fst deleteA = map AssetDelete asset_ids /\
            calls (trace run) =
              [(EntryGetMany q, Fulfilled (GotEntries found_entries));
               (AssetGetMany q, Fulfilled (GotAssets found_assets))] ++
              phases_until_rejection [unpublishE; unpublishA; deleteE; deleteA]
      end
  end.
Proof.
  intros run q r1. subst run q r1.
  destruct (findTaggedEntries_run client (tag options) w) as (Ce & Se & We).
  cbv zeta in *.
  unfold teardownCommand.
  rewrite trace_await, settled_await.
  cbn [info settled trace world app calls].
  rewrite trace_await, settled_await, calls_app, Ce, Se, We.
  destruct (fst (entry_getMany client (tagged_query (tag options)) w))
    as [found_entries|reason]; cbn [answered]; [|split; reflexivity].
  destruct (findTaggedAssets_run client (tag options)
              (snd (entry_getMany client (tagged_query (tag options)) w)))
    as (Ca & Sa & Wa).
  cbv zeta in *.
  rewrite trace_await, settled_await, calls_app, Ca, Sa, Wa.
  destruct (fst (asset_getMany client (tagged_query (tag options)) _))
    as [found_assets|reason]; cbn [answered]; [|split; reflexivity].
  destruct (teardown_after_lookup client SPACE_ID
              (map (fun e => id (entry_sys e)) found_entries)
              (map (fun a => id (asset_sys a)) found_assets)
              (snd (asset_getMany client (tagged_query (tag options))
                      (snd (entry_getMany client (tagged_query (tag options)) w)))))
    as (uE & uA & dE & dA & R1 & R2 & R3 & R4 & Hc & _).
  exists uE, uA, dE, dA. repeat (split; [assumption|]).
  cbv zeta in Hc. rewrite Hc. reflexivity.
Qed.

(** X9: when a lookup of a teardown run is rejected, nothing is unpublished
    and nothing is deleted.  A rejected entry lookup is the only request of
    the run (the assets are not even looked up); a rejected asset lookup is
    the second and last; the run is rejected with the lookup's reason. *)
Theorem teardown_rejected_lookup_touches_nothing (options : Options) (w : W) :
  let run := teardownCommand client SPACE_ID options w in
  let q := tagged_query (tag options) in
  match entry_getMany client q w with
  | (Rejected reason, _) =>
      requests (trace run) = [EntryGetMany q] /\ settled run = Rejected reason
  | (Fulfilled _, w1) =>
      match asset_getMany client q w1 with
      | (Rejected reason, _) =>
          requests (trace run) = [EntryGetMany q; AssetGetMany q] /\
          settled run = Rejected reason
      | (Fulfilled _, _) => True
      end
  end.
Proof.
  intros run q. subst run q.
  pose proof (teardownCommand_run options w) as H. cbv zeta in H.
  unfold requests.
  destruct (entry_getMany client (tagged_query (tag options)) w)
    as [[found_entries|reason] w1]; cbn [fst snd] in H.
  - destruct (asset_getMany client (tagged_query (tag options)) w1)
      as [[found_assets|reason] w2]; cbn [fst snd] in H; [exact I|].
    destruct H as (Hc & Hs). rewrite Hc. split; [reflexivity|exact Hs].
  - destruct H as (Hc & Hs). rewrite Hc. split; [reflexivity|exact Hs].
Qed.

Lemma in_phases_until_rejection (c : Request * Settled Response)
    (phases : list (list (Request * Settled Response))) :
  In c (phases_until_rejection phases) -> In c (concat phases).
Proof.
  induction phases as [|p ps IH]; [intros []|].
  cbn [phases_until_rejection concat]. intros H.
  apply in_app_or in H. apply in_or_app. destruct H as [H|H]; [now left|].
  right. destruct (forallb fulfilled_call p); [now apply IH|destruct H].
Qed.

(** The requests of the four phases touch only the ids they were given. *)
Lemma phases_touch_only (entry_ids asset_ids found_e found_a : list string)
    (unpublishE unpublishA deleteE deleteA : list (Request * Settled Response)) :
  incl entry_ids found_e -> incl asset_ids found_a ->
  map fst unpublishE = unpublish_requests SPACE_ID "Entry" entry_ids ->
  map fst unpublishA = unpublish_requests SPACE_ID "Asset" asset_ids ->
  map fst deleteE = map EntryDelete entry_ids ->
  map fst deleteA = map AssetDelete asset_ids ->
  List.Forall (fun rq => touches_only found_e found_a rq /\ teardown_request rq = true)
    (map fst (unpublishE ++ unpublishA ++ deleteE ++ deleteA)).
Proof.
  intros He Ha R1 R2 R3 R4.
  rewrite !map_app, R1, R2, R3, R4. clear R1 R2 R3 R4.
  repeat (apply List.Forall_app; split).
  - destruct entry_ids as [|i ids]; [constructor|].
    cbn [unpublish_requests]. constructor; [|constructor]. split; [|reflexivity].
    cbn [touches_only unpub_items]. apply List.Forall_forall.
    intros l Hl. apply in_map_iff in Hl. destruct Hl as (j & <- & Hj).
    left. split; [reflexivity|]. apply He. exact Hj.
  - destruct asset_ids as [|i ids]; [constructor|].
    cbn [unpublish_requests]. constructor; [|constructor]. split; [|reflexivity].
    cbn [touches_only unpub_items]. apply List.Forall_forall.
    intros l Hl. apply in_map_iff in Hl. destruct Hl as (j & <- & Hj).
    right. split; [reflexivity|]. apply Ha. exact Hj.
  - apply List.Forall_forall. intros rq Hrq. apply in_map_iff in Hrq.
    destruct Hrq as (j & <- & Hj). split; [|reflexivity]. apply He. exact Hj.
  - apply List.Forall_forall. intros rq Hrq. apply in_map_iff in Hrq.
    destruct Hrq as (j & <- & Hj). split; [|reflexivity]. apply Ha. exact Hj.
Qed.

Lemma teardown_requests_checked (options : Options) (w : W) :
  let cs := calls (trace (teardownCommand client SPACE_ID options w)) in
  List.Forall (fun rq => touches_only (found_entry_ids cs) (found_asset_ids cs) rq /\
                         teardown_request rq = true)
    (map fst cs).
Proof.
  pose proof (teardownCommand_run options w) as H. cbv zeta in H |- *.
  destruct (fst (entry_getMany client (tagged_query (tag options)) w))
    as [found_entries|reason].
  2: { destruct H as (Hc & _). rewrite Hc. repeat constructor. }
  destruct (fst (asset_getMany client (tagged_query (tag options)) _))
    as [found_assets|reason].
  2: { destruct H as (Hc & _). rewrite Hc. repeat constructor. }
  destruct H as (uE & uA & dE & dA & R1 & R2 & R3 & R4 & Hc).
  rewrite Hc. set (phases := phases_until_rejection _).
  cbn [app map fst found_entry_ids found_asset_ids].
  constructor; [split; [exact I|reflexivity]|].
  constructor; [split; [exact I|reflexivity]|].
  apply List.Forall_forall. intros rq Hrq. apply in_map_iff in Hrq.
  destruct Hrq as (c & <- & Hc'). subst phases.
  apply in_phases_until_rejection in Hc'.
  cbn [concat] in Hc'. rewrite app_nil_r in Hc'.
  assert (Hall := phases_touch_only _ _
                    (map (fun e => id (entry_sys e)) found_entries ++
                     found_entry_ids (phases_until_rejection [uE; uA; dE; dA]))
                    (map (fun a => id (asset_sys a)) found_assets ++
                     found_asset_ids (phases_until_rejection [uE; uA; dE; dA]))
                    uE uA dE dA
                    (incl_appl _ (incl_refl _)) (incl_appl _ (incl_refl _))
                    R1 R2 R3 R4).
  rewrite List.Forall_forall in Hall. apply Hall. now apply in_map.
Qed.

(** X10: whatever the vendor does, a teardown run unpublishes and deletes
    only what its own lookups by tag returned: every deleted id, and the id
    of every link of a bulk unpublish, is an id of an entry (for entries) or
    of an asset (for assets) that a fulfilled lookup of the same run
    returned. *)
Theorem teardown_touches_only_what_it_found (options : Options) (w : W) :
  let cs := calls (trace (teardownCommand client SPACE_ID options w)) in
  List.Forall (touches_only (found_entry_ids cs) (found_asset_ids cs))
    (requests (trace (teardownCommand client SPACE_ID options w))).
Proof.
  cbv zeta. unfold requests.
  eapply List.Forall_impl; [|apply teardown_requests_checked].
  intros rq (H & _). exact H.
Qed.

(** X11: whatever the vendor does, a teardown run sends nothing but
    lookups, bulk unpublish requests and deletions: it never creates,
    updates, processes or publishes anything. *)
Theorem teardown_sends_only_teardown_requests (options : Options) (w : W) :
  forallb teardown_request
    (requests (trace (teardownCommand client SPACE_ID options w))) = true.
Proof.
  unfold requests. apply forallb_forall. intros rq Hrq.
  pose proof (teardown_requests_checked options w) as H. cbv zeta in H.
  rewrite List.Forall_forall in H. now apply H.
Qed.

Lemma not_in_unpublish_requests (rq : Request) (type : string) (ids : list string) :
  is_delete rq = true -> ~ In rq (unpublish_requests SPACE_ID type ids).
Proof.
  intros Hd H. destruct ids as [|j ids]; [destruct H|].
  destruct H as [<-|[]]. discriminate Hd.
Qed.

(** A fulfilled phase that unpublishes a non-empty list of ids is one
    fulfilled bulk call linking each of them. *)
Lemma unpublish_phase_of (type i : string) (ids : list string)
    (phase : list (Request * Settled Response)) :
  map fst phase = unpublish_requests SPACE_ID type ids ->
  forallb fulfilled_call phase = true ->
  In i ids ->
  exists payload rs,
    phase = [(BulkActionUnpublish (mkBulkParams SPACE_ID "master") payload, rs)] /\
    is_fulfilled rs = true /\
    In (mkLink type i) (unpub_items payload).
Proof.
  intros Hr Hf Hi. destruct ids as [|j ids]; [destruct Hi|].
  destruct phase as [|[rq rs] [|c phase]]; try discriminate Hr.
  cbn [map fst unpublish_requests] in Hr. injection Hr as ->.
  cbn [forallb] in Hf. apply andb_prop in Hf. destruct Hf as (Hf & _).
  eexists. exists rs. split; [reflexivity|]. split; [exact Hf|].
  cbn [unpub_items]. exact (in_map (fun id => mkLink type id) (j :: ids) i Hi).
Qed.

(** X12: whatever the vendor does, a teardown run deletes an entry only
    after a fulfilled bulk unpublish of the same run that links that entry,
    and an asset only after a fulfilled bulk unpublish that links that asset:
    the deletion comes later in the run than the unpublish, never before. *)
Theorem teardown_deletes_only_after_unpublish (options : Options) (w : W)
    (i : string) :
  let run := teardownCommand client SPACE_ID options w in
  (In (EntryDelete i) (requests (trace run)) ->
   exists before after payload rs,
     calls (trace run) =
       before ++
       (BulkActionUnpublish (mkBulkParams SPACE_ID "master") payload, rs) :: after /\
     is_fulfilled rs = true /\
     In (mkLink "Entry" i) (unpub_items payload) /\
     In (EntryDelete i) (map fst after) /\
     List.filter is_delete (map fst before) = []) /\
  (In (AssetDelete i) (requests (trace run)) ->
   exists before after payload rs,
     calls (trace run) =
       before ++
       (BulkActionUnpublish (mkBulkParams SPACE_ID "master") payload, rs) :: after /\
     is_fulfilled rs = true /\
     In (mkLink "Asset" i) (unpub_items payload) /\
     In (AssetDelete i) (map fst after) /\
     List.filter is_delete (map fst before) = []).
Proof.
  cbv zeta. unfold requests.
  pose proof (teardownCommand_run options w) as H. cbv zeta in H.
  destruct (fst (entry_getMany client (tagged_query (tag options)) w))
    as [found_entries|reason].
  2: { destruct H as (Hc & _). rewrite Hc.
       split; intros [Hin|[]]; discriminate Hin. }
  destruct (fst (asset_getMany client (tagged_query (tag options)) _))
    as [found_assets|reason].
  2: { destruct H as (Hc & _). rewrite Hc.
       split; intros [Hin|[Hin|[]]]; discriminate Hin. }
  destruct H as (uE & uA & dE & dA & R1 & R2 & R3 & R4 & Hc).
  rewrite Hc. clear Hc.
  set (entry_ids := map (fun e => id (entry_sys e)) found_entries) in *.
  set (asset_ids := map (fun a => id (asset_sys a)) found_assets) in *.
  cbn [phases_until_rejection app map fst In].
  assert (Hnil : (if forallb fulfilled_call dA
                  then @nil (Request * Settled Response) else []) = [])
    by (now destruct (forallb fulfilled_call dA)).
  rewrite Hnil, app_nil_r. clear Hnil.
  assert (NE : forall rq, is_delete rq = true -> ~ In rq (map fst uE))
    by (intros rq Hd; rewrite R1; now apply not_in_unpublish_requests).
  assert (NA : forall rq, is_delete rq = true -> ~ In rq (map fst uA))
    by (intros rq Hd; rewrite R2; now apply not_in_unpublish_requests).
  assert (FE : List.filter is_delete (map fst uE) = []).
  { rewrite R1. now destruct entry_ids. }
  split; intros [Hin|[Hin|Hin]]; try discriminate Hin;
    rewrite map_app in Hin; apply in_app_or in Hin;
    (destruct Hin as [Hin|Hin]; [now apply NE in Hin|]);
    (destruct (forallb fulfilled_call uE) eqn:F1; [|destruct Hin]);
    rewrite map_app in Hin; apply in_app_or in Hin;
    (destruct Hin as [Hin|Hin]; [now apply NA in Hin|]);
    (destruct (forallb fulfilled_call uA) eqn:F2; [|destruct Hin]);
    rewrite map_app in Hin; apply in_app_or in Hin.
  - destruct Hin as [Hin|Hin].
    + assert (Hi : In i entry_ids).
      { rewrite R3 in Hin. apply in_map_iff in Hin.
        destruct Hin as (j & Hj & Hin). now injection Hj as <-. }
      destruct (unpublish_phase_of "Entry" i entry_ids uE R1 F1 Hi)
        as (payload & rs & -> & Hrs & Hl).
      eexists [_; _], _, payload, rs.
      split; [cbn [app]; reflexivity|]. split; [exact Hrs|]. split; [exact Hl|].
      split; [|reflexivity].
      rewrite map_app. apply in_or_app. right.
      rewrite map_app. apply in_or_app. now left.
    + exfalso. destruct (forallb fulfilled_call dE); [|destruct Hin].
      rewrite R4 in Hin. apply in_map_iff in Hin.
      destruct Hin as (j & Hj & _). discriminate Hj.
  - destruct Hin as [Hin|Hin].
    + exfalso. rewrite R3 in Hin. apply in_map_iff in Hin.
      destruct Hin as (j & Hj & _). discriminate Hj.
    + destruct (forallb fulfilled_call dE); [|destruct Hin].
      assert (Hi : In i asset_ids).
      { rewrite R4 in Hin. apply in_map_iff in Hin.
        destruct Hin as (j & Hj & Hin). now injection Hj as <-. }
      destruct (unpublish_phase_of "Asset" i asset_ids uA R2 F2 Hi)
        as (payload & rs & -> & Hrs & Hl).
      exists ([(EntryGetMany (tagged_query (tag options)),
                Fulfilled (GotEntries found_entries));
               (AssetGetMany (tagged_query (tag options)),
                Fulfilled (GotAssets found_assets))] ++ uE),
             (dE ++ dA), payload, rs.
      split; [reflexivity|].
      split; [exact Hrs|]. split; [exact Hl|].
      split.
      * rewrite map_app. apply in_or_app. now right.
      * rewrite map_app, List.filter_app, FE. reflexivity.
Qed.

End TeardownRuns.

(** ** The access module, function by function *)

Section AccessRuns.

Context {W : Type}.
Variable client : PlainClient W.
Variable JSON_stringify : Fields -> string.
Variable SPACE_ID : string.

(** X13: each of [findTaggedEntries] and [findTaggedAssets] sends exactly
    one lookup, whatever the size of the answer, with a query that selects
    [sys.id] and filters on the tag; fulfilled, it returns the ids of the
    returned items, one per item and in the vendor's order; rejected, it is
    rejected with the vendor's reason. *)
Theorem findTagged_sends_one_lookup (tag : string) (w : W) :
  (tagged_query tag !! "select" = Some "sys.id" /\
   tagged_query tag !! "metadata.tags.sys.id[all]" = Some tag /\
   size (tagged_query tag) = 2) /\
  (requests (trace (findTaggedEntries client tag w)) =
     [EntryGetMany (tagged_query tag)] /\
   settled (findTaggedEntries client tag w) =
     match fst (entry_getMany client (tagged_query tag) w) with
     | Fulfilled items => Fulfilled (map (fun e => id (entry_sys e)) items)
     | Rejected reason => Rejected reason
     end) /\
  (requests (trace (findTaggedAssets client tag w)) =
     [AssetGetMany (tagged_query tag)] /\
   settled (findTaggedAssets client tag w) =
     match fst (asset_getMany client (tagged_query tag) w) with
     | Fulfilled items => Fulfilled (map (fun a => id (asset_sys a)) items)
     | Rejected reason => Rejected reason
     end).
Proof.
  split; [|split].
  - unfold tagged_query. split; [|split].
    + rewrite lookup_insert_eq. reflexivity.
    + rewrite lookup_insert_ne by discriminate. apply lookup_singleton_eq.
    + rewrite map_size_insert_None, map_size_singleton; [reflexivity|].
      rewrite lookup_singleton_ne; [reflexivity|discriminate].
  - destruct (findTaggedEntries_run client tag w) as (Hc & Hs & _).
    unfold requests. rewrite Hc, Hs. split; reflexivity.
  - destruct (findTaggedAssets_run client tag w) as (Hc & Hs & _).
    unfold requests. rewrite Hc, Hs. split; reflexivity.
Qed.

(** X14: [deleteEntries] and [deleteAssets] send one deletion per id, in
    the order of the ids, and send them all even when an earlier deletion is
    rejected; the function is fulfilled exactly when every deletion is. *)
Theorem deletions_are_all_sent (ids : list string) (w : W) :
  (requests (trace (deleteEntries client ids w)) = map EntryDelete ids /\
   is_fulfilled (settled (deleteEntries client ids w)) =
     forallb fulfilled_call (calls (trace (deleteEntries client ids w)))) /\
  (requests (trace (deleteAssets client ids w)) = map AssetDelete ids /\
   is_fulfilled (settled (deleteAssets client ids w)) =
     forallb fulfilled_call (calls (trace (deleteAssets client ids w)))).
Proof.
  split; [apply deleteEntries_phase|apply deleteAssets_phase].
Qed.

(** X15: [processAssets] requests the processing of every asset, in order,
    even when an earlier request is rejected, and is fulfilled exactly when
    every request is; fulfilled, it returns one processed asset per input
    asset, the one at each position being the vendor's answer for the asset
    at that position. *)
Theorem processAssets_joins_all (assets : list AssetProps) (w : W) :
  requests (trace (processAssets client assets w)) =
    map AssetProcessForAllLocales assets /\
  is_fulfilled (settled (processAssets client assets w)) =
    forallb fulfilled_call (calls (trace (processAssets client assets w))) /\
  (forall processed,
     settled (processAssets client assets w) = Fulfilled processed ->
     length processed = length assets /\
     calls (trace (processAssets client assets w)) =
       process_calls assets processed).
Proof.
  destruct (processAssets_phase client assets w) as (Hr & Hf).
  split; [exact Hr|]. split; [exact Hf|].
  intros processed H. apply processAssets_fulfilled in H.
  destruct H as (Hc & Hl). split; assumption.
Qed.

(** X16: [createEntry] sends exactly one request, the creation of an entry
    of the given content type whose fields are the given value, unchanged,
    and whose metadata holds exactly one link, to the tag; it settles the
    way the vendor does, returning the vendor's entry or its reason. *)
Theorem createEntry_tags_at_creation (contentTypeId : string) (value : Fields)
    (tag : string) (w : W) :
  exists entry,
    ce_fields entry = value /\
    ce_metadata entry = Some (mkMetadata [mkLink "Tag" tag]) /\
    calls (trace (createEntry client JSON_stringify contentTypeId value tag w)) =
      [(EntryCreate contentTypeId entry,
        answered GotEntry (fst (entry_create client contentTypeId entry w)))] /\
    settled (createEntry client JSON_stringify contentTypeId value tag w) =
      fst (entry_create client contentTypeId entry w).
Proof.
  destruct (createEntry_run client JSON_stringify contentTypeId value tag w)
    as (Hc & Hs & _).
  eexists. split; [|split; [|split; [exact Hc|exact Hs]]]; reflexivity.
Qed.

(** X17: for a non-empty list of ids, [unpublishItems] sends exactly one
    request, a bulk unpublish whose payload has one link per id, in the
    order of the list, each of the given link type; [unpublishEntries] does
    so with link type [Entry] and [unpublishAssets] with link type [Asset]. *)
Theorem unpublish_payload_links (i : string) (ids : list string) (type : string)
    (w : W) :
  (exists payload,
     requests (trace (unpublishItems client SPACE_ID (i :: ids) type w)) =
       [BulkActionUnpublish (mkBulkParams SPACE_ID "master") payload] /\
     length (unpub_items payload) = length (i :: ids) /\
     forall n : nat,
       unpub_items payload !! n = mkLink type <$> (i :: ids) !! n) /\
  requests (trace (unpublishEntries client SPACE_ID (i :: ids) w)) =
    requests (trace (unpublishItems client SPACE_ID (i :: ids) "Entry" w)) /\
  requests (trace (unpublishAssets client SPACE_ID (i :: ids) w)) =
    requests (trace (unpublishItems client SPACE_ID (i :: ids) "Asset" w)).
Proof.
  split; [|split].
  - destruct (unpublishItems_cons client SPACE_ID i ids type w) as (Hc & _).
    eexists. unfold requests. rewrite Hc. split; [reflexivity|].
    cbn [unpub_items]. split.
    + now rewrite length_map.
    + intros n. now rewrite list_lookup_fmap.
  - unfold unpublishEntries, requests. rewrite trace_await. reflexivity.
  - unfold unpublishAssets, requests. rewrite trace_await. reflexivity.
Qed.


End AccessRuns.

(** ** The command line, whatever its words *)






(** ** Runs against the demo vendor and the refusing vendor *)

(** The tagging of the second image, [a3], is refused. *)
Lemma setup_stops_at_first_creation_failure_witness :
  creation_failed
    (calls (trace (Faulty.setup (Faulty.tagging_of "a3") Demo.demo_options))) = true /\
  exists reason,
    settled (Faulty.setup (Faulty.tagging_of "a3") Demo.demo_options) =
      Rejected reason /\
    List.filter is_process
      (requests (trace (Faulty.setup (Faulty.tagging_of "a3") Demo.demo_options)))
      = [] /\
    List.filter is_publish
      (requests (trace (Faulty.setup (Faulty.tagging_of "a3") Demo.demo_options)))
      = [].
Proof.
  assert (H : creation_failed
                (calls (trace (Faulty.setup (Faulty.tagging_of "a3")
                                 Demo.demo_options))) = true)
    by (vm_compute; reflexivity).
  split; [exact H|].
  destruct (setup_stops_at_first_creation_failure
              (Faulty.client [] [] (Faulty.tagging_of "a3")) Demo.faker
              (fun s => s) (fun s => s) (fun _ => "{}") "space"
              Demo.demo_options 0 H)
    as (its & it & k & reason & _ & _ & _ & Hs & Hp & Hq).
  exists reason. split; [exact Hs|]. split; [exact Hp|exact Hq].
Defined.

Lemma setup_request_count_witness :
  settled (Demo.setup Demo.no_failure Demo.demo_options) = Fulfilled tt /\
  length (requests (trace (Demo.setup Demo.no_failure Demo.demo_options))) = 51.
Proof.
  assert (H : settled (Demo.setup Demo.no_failure Demo.demo_options) = Fulfilled tt)
    by (vm_compute; reflexivity).
  split; [exact H|].
  exact (proj2 (setup_request_count
                  (Demo.client [] [] Demo.no_failure) Demo.faker
                  (fun s => s) (fun s => s) (fun _ => "{}") "space"
                  Demo.demo_options 0) H).
Defined.

Lemma setup_processes_the_tagged_assets_witness :
  creation_failed
    (calls (trace (Demo.setup Demo.no_failure Demo.demo_options))) = false /\
  length (tagging_answers
            (calls (trace (Demo.setup Demo.no_failure Demo.demo_options)))) = 10.
Proof.
  assert (H : creation_failed
                (calls (trace (Demo.setup Demo.no_failure Demo.demo_options)))
              = false) by (vm_compute; reflexivity).
  split; [exact H|].
  exact (proj2 (setup_processes_the_tagged_assets
                  (Demo.client [] [] Demo.no_failure) Demo.faker
                  (fun s => s) (fun s => s) (fun _ => "{}") "space"
                  Demo.demo_options 0) H).
Defined.

Lemma teardown_deletes_only_after_unpublish_witness :
  In (EntryDelete "e1")
    (requests (trace (Demo.teardown ["e1"] ["a1"] Demo.demo_options))) /\
  In (AssetDelete "a1")
    (requests (trace (Demo.teardown ["e1"] ["a1"] Demo.demo_options))) /\
  (exists before after payload rs,
     calls (trace (Demo.teardown ["e1"] ["a1"] Demo.demo_options)) =
       before ++
       (BulkActionUnpublish (mkBulkParams "space" "master") payload, rs) :: after /\
     is_fulfilled rs = true /\
     In (mkLink "Entry" "e1") (unpub_items payload) /\
     In (EntryDelete "e1") (map fst after) /\
     List.filter is_delete (map fst before) = []) /\
  (exists before after payload rs,
     calls (trace (Demo.teardown ["e1"] ["a1"] Demo.demo_options)) =
       before ++
       (BulkActionUnpublish (mkBulkParams "space" "master") payload, rs) :: after /\
     is_fulfilled rs = true /\
     In (mkLink "Asset" "a1") (unpub_items payload) /\
     In (AssetDelete "a1") (map fst after) /\
     List.filter is_delete (map fst before) = []).
Proof.
  assert (HE : In (EntryDelete "e1")
                 (requests (trace (Demo.teardown ["e1"] ["a1"] Demo.demo_options))))
    by (vm_compute; do 4 right; left; reflexivity).
  assert (HA : In (AssetDelete "a1")
                 (requests (trace (Demo.teardown ["e1"] ["a1"] Demo.demo_options))))
    by (vm_compute; do 5 right; left; reflexivity).
  split; [exact HE|]. split; [exact HA|].
  split.
  - exact (proj1 (teardown_deletes_only_after_unpublish
                    (Demo.client ["e1"] ["a1"] Demo.no_failure) "space"
                    Demo.demo_options 0 "e1") HE).
  - exact (proj2 (teardown_deletes_only_after_unpublish
                    (Demo.client ["e1"] ["a1"] Demo.no_failure) "space"
                    Demo.demo_options 0 "a1") HA).
Defined.

Lemma processAssets_joins_all_witness :
  let assets := [mkAsset (mkSys "a0" 2 "Asset") ∅ None;
                 mkAsset (mkSys "a3" 2 "Asset") ∅ None] in
  let processed := [mkAsset (mkSys "a0" 3 "Asset") ∅ None;
                    mkAsset (mkSys "a3" 3 "Asset") ∅ None] in
  settled (processAssets (Demo.client [] [] Demo.no_failure) assets (0 : Demo.W)) =
    Fulfilled processed /\
  length processed = length assets /\
  calls (trace (processAssets (Demo.client [] [] Demo.no_failure) assets
                  (0 : Demo.W))) = process_calls assets processed.
Proof.
  intros assets processed.
  assert (H : settled (processAssets (Demo.client [] [] Demo.no_failure) assets
                         (0 : Demo.W)) = Fulfilled processed) by reflexivity.
  split; [exact H|].
  exact (proj2 (proj2 (processAssets_joins_all
                         (Demo.client [] [] Demo.no_failure) assets 0))
           processed H).
Defined.
